(** * xrdsimpy: simulated X-ray powder diffraction patterns

    A shallow embedding of [xrd.py] (class [XRD]) and the properties of its
    pipeline: wavelength resolution, plane enumeration, structure factors and
    intensities, multiplicity merge, normalisation and the d-spacing report.

    Numbers.  The program computes with IEEE doubles (Python floats and numpy
    float64).  The embedding reads every such value as a real number of [R]
    and every arithmetic operation as the exact operation; integers are [Z].
    Where numpy would leave the reals without raising (a division by zero
    giving inf or nan) the model keeps Rocq's total division, and no theorem
    below relies on a quotient whose denominator is zero.  The multiplicity
    merge is written once over an arbitrary number type, so that its
    properties hold for the doubles of the program as well, and instantiated
    at [R] for the pipeline.

    Outside.  The form-factor file form.txt, the order in which Python
    iterates over a set, [float] on the wavelength specifier, [numpy.sort],
    [numpy.argsort] and [str] on a float are parameters of the program
    (Section [Program]).  [plot] returns the calls it makes to
    matplotlib.pyplot as data, and the script ([main]) starts from what
    [readCONTCAR] returned. *)

From Stdlib Require Import String Ascii.
From Stdlib Require Import Reals Lra Lia ZArith List Bool.
From Stdlib Require Import Sorted Permutation.
Import ListNotations.

(** ** Python exceptions and results *)

Module Py.

Inductive exn : Type :=
| KeyError
| LinAlgError
| ZeroDivisionError
| OverflowError
| TypeError
| IndexError
| ValueError.

Inductive result (A : Type) : Type :=
| Ok (a : A)
| Raise (e : exn).

Arguments Ok {A} a.
Arguments Raise {A} e.

Definition bind {A B : Type} (r : result A) (k : A -> result B) : result B :=
  match r with
  | Ok a => k a
  | Raise e => Raise e
  end.

End Py.

Import Py.

Notation "x <- c ;; k" := (bind c (fun x => k))
  (at level 61, c at next level, right associativity).

(** ** The multiplicity merge, over any number type

    [sum_intensity] is defined twice in the source, inside [plot] and inside
    [get_dspacing], with the same text; one definition embeds both. *)

Section Merge.

Variable num : Type.
Variable sub : num -> num -> num.
Variable absn : num -> num.
Variable leb : num -> num -> bool.
Variable add : num -> num -> num.

(** [abs(r - x_value) <= tolerance] for one representative [r]. *)
Definition close (tolerance r x_value : num) : bool :=
  leb (absn (sub r x_value)) tolerance.

(** [np.where(abs(new_x_list - x_value) <= tolerance)[0]] followed by
    [index[0]] when it is not empty: the least index whose representative is
    within the tolerance. *)
Fixpoint where_first (tolerance : num) (new_x_list : list num) (x_value : num)
  : option nat :=
  match new_x_list with
  | [] => None
  | r :: rest =>
      if close tolerance r x_value then Some O
      else option_map S (where_first tolerance rest x_value)
  end.

(** [new_y_list[j] += y]. *)
Fixpoint add_at (j : nat) (y : num) (new_y_list : list num) : list num :=
  match new_y_list, j with
  | [], _ => []
  | v :: rest, O => add v y :: rest
  | v :: rest, S j' => v :: add_at j' y rest
  end.

(** The loop [for i, x_value in enumerate(x_list)], with the two lists it
    builds as its state; [y_list[i]] raises [IndexError] when [y_list] is the
    shorter list. *)
Fixpoint merge_loop (tolerance : num) (x_list y_list new_x_list new_y_list : list num)
  : result (list num * list num) :=
  match x_list with
  | [] => Ok (new_x_list, new_y_list)
  | x_value :: xs =>
      match y_list with
      | [] => Raise IndexError
      | y :: ys =>
          match where_first tolerance new_x_list x_value with
          | Some j => merge_loop tolerance xs ys new_x_list (add_at j y new_y_list)
          | None => merge_loop tolerance xs ys (new_x_list ++ [x_value]) (new_y_list ++ [y])
          end
      end
  end.

Definition sum_intensity_gen (x_list y_list : list num) (tolerance : num)
  : result (list num * list num) :=
  merge_loop tolerance x_list y_list [] [].

(** No representative is within the tolerance of a later one. *)
Fixpoint separated (tolerance : num) (reps : list num) (l : list num) : Prop :=
  match l with
  | [] => True
  | x :: rest =>
      where_first tolerance reps x = None /\ separated tolerance (reps ++ [x]) rest
  end.

End Merge.

(** ** Real numbers, vectors and complex numbers *)

Open Scope R_scope.

Definition Rleb (a b : R) : bool := if Rle_dec a b then true else false.
Definition Reqb (a b : R) : bool := if Req_dec_T a b then true else false.

(** [sum_intensity(x_list, y_list, tolerance=1E-5)] on the values of the
    pipeline. *)
Definition default_tolerance : R := 1e-5.

Definition sum_intensity (x_list y_list : list R) (tolerance : R)
  : result (list R * list R) :=
  sum_intensity_gen R Rminus Rabs Rleb Rplus x_list y_list tolerance.

Definition vec3 : Type := R * R * R.
Definition mat3 : Type := vec3 * vec3 * vec3.
Definition hkl : Type := Z * Z * Z.

Definition vadd (u v : vec3) : vec3 :=
  let '(u0, u1, u2) := u in
  let '(v0, v1, v2) := v in
  (u0 + v0, u1 + v1, u2 + v2).

Definition vscale (c : R) (v : vec3) : vec3 :=
  let '(v0, v1, v2) := v in (c * v0, c * v1, c * v2).

(** [numpy.dot] of two vectors of length three. *)
Definition dot (u v : vec3) : R :=
  let '(u0, u1, u2) := u in
  let '(v0, v1, v2) := v in
  u0 * v0 + u1 * v1 + u2 * v2.

(** [numpy.linalg.norm] of a vector: the Euclidean norm. *)
Definition norm (v : vec3) : R := sqrt (dot v v).

Definition plane_vec (p : hkl) : vec3 :=
  let '(h, k, l) := p in (IZR h, IZR k, IZR l).

(** [h * k_1 + k * k_2 + l * k_3] *)
Definition lincomb (p : hkl) (k_1 k_2 k_3 : vec3) : vec3 :=
  let '(h, k, l) := p in
  vadd (vadd (vscale (IZR h) k_1) (vscale (IZR k) k_2)) (vscale (IZR l) k_3).

(** [np.dot([h, k, l], rec_lattice)]: a row vector times the matrix. *)
Definition vecmat (p : hkl) (m : mat3) : vec3 :=
  let '(h, k, l) := p in
  let '(r1, r2, r3) := m in
  let '(a0, a1, a2) := r1 in
  let '(b0, b1, b2) := r2 in
  let '(c0, c1, c2) := r3 in
  (IZR h * a0 + IZR k * b0 + IZR l * c0,
   IZR h * a1 + IZR k * b1 + IZR l * c1,
   IZR h * a2 + IZR k * b2 + IZR l * c2).

Definition det (m : mat3) : R :=
  let '(r1, r2, r3) := m in
  let '(a, b, c) := r1 in
  let '(d, e, f) := r2 in
  let '(g, h, i) := r3 in
  a * (e * i - f * h) - b * (d * i - f * g) + c * (d * h - e * g).

(** [np.linalg.inv], in exact arithmetic: the inverse of a 3x3 matrix (the
    inverse is unique, so the cofactor formula gives the matrix that the
    factorisation computes), and [LinAlgError] for a singular matrix, whose
    factorisation meets a zero pivot.  On doubles numpy raises only when a
    pivot is exactly zero after rounding, so a singular lattice may be
    inverted without an error; the properties below are stated for lattices
    with [det <> 0], where the two agree on the result. *)
Definition inv (m : mat3) : result mat3 :=
  let '(r1, r2, r3) := m in
  let '(a, b, c) := r1 in
  let '(d, e, f) := r2 in
  let '(g, h, i) := r3 in
  if Req_dec_T (det m) 0 then Raise LinAlgError
  else
    let s := / det m in
    Ok ((s * (e * i - f * h), s * (c * h - b * i), s * (b * f - c * e)),
        (s * (f * g - d * i), s * (a * i - c * g), s * (c * d - a * f)),
        (s * (d * h - e * g), s * (b * g - a * h), s * (a * e - b * d))).

(** [m.T] *)
Definition transpose (m : mat3) : mat3 :=
  let '(r1, r2, r3) := m in
  let '(a, b, c) := r1 in
  let '(d, e, f) := r2 in
  let '(g, h, i) := r3 in
  ((a, d, g), (b, e, h), (c, f, i)).

(** [m * np.pi * 2], entry by entry. *)
Definition mscale_pi2 (m : mat3) : mat3 :=
  let f := fun x : R => x * PI * 2 in
  let '(r1, r2, r3) := m in
  let '(a, b, c) := r1 in
  let '(d, e, g) := r2 in
  let '(h, i, j) := r3 in
  ((f a, f b, f c), (f d, f e, f g), (f h, f i, f j)).

(** Complex numbers as pairs (real part, imaginary part). *)
Definition C : Type := R * R.
Definition C0 : C := (0, 0).
Definition Cadd (a b : C) : C := (fst a + fst b, snd a + snd b).
(** A real number times a complex number. *)
Definition Cscale (f : R) (z : C) : C := (f * fst z, f * snd z).
(** [np.exp(1j * t)] *)
Definition Cexp_i (t : R) : C := (cos t, sin t).
(** [numpy.linalg.norm] of a complex scalar: its modulus. *)
Definition Cnorm (z : C) : R := sqrt (fst z * fst z + snd z * snd z).
(** Python's [sum]: a left fold that starts at 0. *)
Definition Csum (l : list C) : C := fold_left Cadd l C0.

(** [int(np.ceil(x))] *)
Definition ceil (x : R) : Z := (1 - up (- x))%Z.

(** ** The model *)

Definition atom : Type := string * vec3.
Definition reflection : Type := Z * Z * Z * R * R.

Record XRD : Type := mkXRD {
  lattice : mat3;
  rec_lattice : mat3;
  atoms : list atom;
  wavelength : R;
  twotheta_list : option (list R);
  inten_profile : option (list reflection);
  intensity_list : option (list R)
}.

(** The dictionary of [get_wavelength], in the order it is written. *)
Definition xray_wavelength : list (string * R) :=
  [ ("CuKa1"%string, 1.5405981);
    ("CuKa2"%string, 1.54443);
    ("CuKb1"%string, 1.39225);
    ("WLa1"%string, 1.47642);
    ("WLa2"%string, 1.48748) ].

Fixpoint dict_get (d : list (string * R)) (key : string) : result R :=
  match d with
  | [] => Raise KeyError
  | (k, v) :: rest => if String.eqb k key then Ok v else dict_get rest key
  end.

Definition get_wavelength (anode : string) : result R :=
  dict_get xray_wavelength anode.

Definition MAX_INDEX : Z := 5%Z.

(** [xrange(lo, hi)] *)
Definition xrange (lo hi : Z) : list Z :=
  map (fun i => (lo + Z.of_nat i)%Z) (seq 0 (Z.to_nat (hi - lo))).

(** [itertools.product(r, repeat=3)]: the last index runs fastest. *)
Definition product3 (r : list Z) : list hkl :=
  flat_map (fun h => flat_map (fun k => map (fun l => (h, k, l)) r) r) r.

(** [int(np.ceil(1. / wavelength / norm(k) * 4. * np.pi))], on real numbers.
    [1. / wavelength] divides Python floats and raises on zero; the division
    by the numpy norm gives inf on zero, which [int] refuses.  On doubles
    [int] also refuses the quotient when it overflows to inf (a subnormal
    wavelength) or is nan; these values are not real numbers and have no
    counterpart here. *)
Definition axis_index (wl : R) (k : vec3) : result Z :=
  if Req_dec_T wl 0 then Raise ZeroDivisionError
  else if Req_dec_T (norm k) 0 then Raise OverflowError
  else Ok (ceil (1 / wl / norm k * 4 * PI)).

(** Lines 88 to 93 of [get_kvec_list]: [if not max_index] holds for [None]
    and for the integer 0. *)
Definition resolve_bound (wl : R) (k_1 k_2 k_3 : vec3) (max_index : option Z)
  : result Z :=
  let derive :=
    h <- axis_index wl k_1 ;;
    k <- axis_index wl k_2 ;;
    l <- axis_index wl k_3 ;;
    Ok (Z.min MAX_INDEX (Z.max h (Z.max k l))) in
  match max_index with
  | None => derive
  | Some b => if (b =? 0)%Z then derive else Ok b
  end.

(** [wavelength * (norm(q) / 4. / np.pi)] for [q = h*k_1 + k*k_2 + l*k_3]. *)
Definition sin_twotheta (wl : R) (k_1 k_2 k_3 : vec3) (p : hkl) : R :=
  wl * (norm (lincomb p k_1 k_2 k_3) / 4 / PI).

(** [-1 <= s <= 1] *)
Definition in_unit (s : R) : bool := Rleb (-1) s && Rleb s 1.

(** Lines 95 to 102: the filtered scan of the cube. *)
Definition kvec_scan (wl : R) (k_1 k_2 k_3 : vec3) (max_index : Z) : list hkl :=
  filter (fun p => in_unit (sin_twotheta wl k_1 k_2 k_3 p))
         (product3 (xrange (- max_index) (max_index + 1))).

Definition get_kvec_list (wl : R) (k_1 k_2 k_3 : vec3) (max_index : option Z)
  : result (list hkl) :=
  b <- resolve_bound wl k_1 k_2 k_3 max_index ;;
  Ok (kvec_scan wl k_1 k_2 k_3 b).

Notation "' pat <- c ;; k" := (bind c (fun pat => k))
  (at level 61, pat pattern, c at next level, right associativity).

(** The line feed that ends each line written to d_spacing.out. *)
Definition newline : string := String (ascii_of_nat 10) EmptyString.

Definition from_option {A : Type} (e : exn) (o : option A) : result A :=
  match o with
  | Some a => Ok a
  | None => Raise e
  end.

(** [l[i]] on a Python list or numpy array, for an index that is not
    negative. *)
Definition index {A : Type} (l : list A) (i : nat) : result A :=
  from_option IndexError (nth_error l i).

(** A [for] loop that collects one value per item and stops at the first
    exception. *)
Fixpoint for_each {A B : Type} (f : A -> result B) (l : list A) : result (list B) :=
  match l with
  | [] => Ok []
  | a :: rest => b <- f a ;; bs <- for_each f rest ;; Ok (b :: bs)
  end.

(** Python's [max] of a sequence: [ValueError] when it is empty. *)
Definition py_max (l : list R) : result R :=
  match l with
  | [] => Raise ValueError
  | v :: rest => Ok (fold_left (fun m x => if Rlt_dec m x then x else m) rest v)
  end.

(** [normalize(y_list, max_value=100.)]; defined twice in the source with the
    same text, like [sum_intensity]. *)
Definition normalize (y_list : list R) (max_value : R) : result (list R) :=
  m <- py_max y_list ;;
  Ok (map (fun y => y / m * max_value) y_list).

(** [(1. + cos(theta * 2) ** 2) / (8. * sin(theta) ** 2 * cos(theta))] *)
Definition lp_factor (theta : R) : R :=
  (1 + cos (theta * 2) ^ 2) / (8 * sin theta ^ 2 * cos theta).

(** What the loop of [get_xrd] has built so far: the three lists, and the
    values the [else] branch printed. *)
Record xrd_acc : Type := mkAcc {
  acc_profile : list reflection;
  acc_intensity : list R;
  acc_twotheta : list R;
  acc_printed : list R
}.

Definition acc_empty : xrd_acc := mkAcc [] [] [] [].

(** Lines 138 to 151, for one plane with its [y] and its [s_factor_list]. *)
Definition angle_step (wl : R) (p : hkl) (y : R) (s_factor_list : list C)
  (acc : xrd_acc) : xrd_acc :=
  let '(h, k, l) := p in
  if in_unit (wl * y) then
    let theta := asin (wl * y) in
    if Reqb theta (PI / 2) || Reqb theta 0 then acc
    else
      let inten := Cnorm (Csum s_factor_list) ^ 2 * lp_factor theta in
      let twotheta := 2 * 180 / PI * theta in
      mkAcc (acc_profile acc ++ [(h, k, l, twotheta, inten)])
            (acc_intensity acc ++ [inten])
            (acc_twotheta acc ++ [twotheta])
            (acc_printed acc)
  else
    mkAcc (acc_profile acc) (acc_intensity acc) (acc_twotheta acc)
          (acc_printed acc ++ [wl * y]).

(** The calls [plot] makes to matplotlib.pyplot, in order: what is drawn is
    kept as data. *)
Inductive plt_call : Type :=
| PltPlot (xs ys : list R) (fmt color : string)
| PltXlim (angles : R * R)
| PltXlabel (s : string)
| PltYlabel (s : string)
| PltSavefig (name : string)
| PltShow.

(** ** The program, over what it takes from outside

    [form_file] is the data file form.txt, which is not part of the sources:
    one entry per line, the element symbol and the numbers after it.
    [set_order] is the order in which Python iterates over [set(l)], which the
    language leaves open.  [py_float] is [float] on the wavelength specifier
    ([None] for [ValueError]).  [np_sort], [np_argsort] and [str_float] are
    [numpy.sort], [numpy.argsort] and [str] on a float. *)

Section Program.

Variable form_file : list (string * list R).
Variable set_order : list string -> list string.
Variable py_float : string -> option R.
Variable np_sort : list R -> list R.
Variable np_argsort : list R -> list nat.
Variable str_float : R -> string.

(** [XRD.__init__]: the reciprocal lattice is computed before the wavelength
    is resolved. *)
Definition XRD_init (lat : mat3) (ats : list atom) (wl : string) : result XRD :=
  i <- inv lat ;;
  let rec_lat := mscale_pi2 (transpose i) in
  w <- match py_float wl with
       | None => get_wavelength wl
       | Some v => Ok v
       end ;;
  Ok (mkXRD lat rec_lat ats w None None None).

(** [get_atom_form]: the numbers of the first line whose symbol is the
    element, [None] when there is none. *)
Fixpoint get_atom_form_in (lines : list (string * list R)) (element : string)
  : option (list R) :=
  match lines with
  | [] => None
  | (sym, nums) :: rest =>
      if String.eqb sym element then Some nums else get_atom_form_in rest element
  end.

Definition get_atom_form (element : string) : option (list R) :=
  get_atom_form_in form_file element.

(** Lines 122 to 127: indexing [None] raises [TypeError], a short list
    [IndexError]. *)
Definition atom_form (element : string) (y : R) : result R :=
  a <- from_option TypeError (get_atom_form element) ;;
  a0 <- index a 0 ;; a1 <- index a 1 ;; a2 <- index a 2 ;;
  a3 <- index a 3 ;; a4 <- index a 4 ;; a5 <- index a 5 ;;
  a6 <- index a 6 ;; a7 <- index a 7 ;; a8 <- index a 8 ;;
  Ok (a0 * exp (- a1 * y ^ 2) + a2 * exp (- a3 * y ^ 2) +
      a4 * exp (- a5 * y ^ 2) + a6 * exp (- a7 * y ^ 2) + a8).

(** Lines 129 to 136: the contributions of the atoms of one element. *)
Definition element_factors (ats : list atom) (element : string) (f : R) (p : hkl)
  : list C :=
  map (fun a : atom => Cscale f (Cexp_i (2 * PI * dot (snd a) (plane_vec p))))
      (filter (fun a : atom => String.eqb (fst a) element) ats).

(** Lines 121 to 136: the loop over the elements, appending to
    [s_factor_list]. *)
Fixpoint s_factors (ats : list atom) (elements : list string) (y : R) (p : hkl)
  (s_factor_list : list C) : result (list C) :=
  match elements with
  | [] => Ok s_factor_list
  | element :: rest =>
      f <- atom_form element y ;;
      s_factors ats rest y p (s_factor_list ++ element_factors ats element f p)
  end.

(** [y = norm(np.dot([h, k, l], rec_lattice)) / 4. / np.pi] *)
Definition y_of (m : XRD) (p : hkl) : R :=
  norm (vecmat p (rec_lattice m)) / 4 / PI.

Definition elements_of (m : XRD) : list string :=
  set_order (map fst (atoms m)).

(** Lines 116 to 151: the loop over the planes. *)
Fixpoint xrd_loop (m : XRD) (planes : list hkl) (acc : xrd_acc) : result xrd_acc :=
  match planes with
  | [] => Ok acc
  | p :: rest =>
      let y := y_of m p in
      fl <- s_factors (atoms m) (elements_of m) y p [] ;;
      xrd_loop m rest (angle_step (wavelength m) p y fl acc)
  end.

(** [get_xrd]: the model with its pattern set, and what was printed. *)
Definition get_xrd (m : XRD) : result (XRD * list R) :=
  let '(k_1, k_2, k_3) := rec_lattice m in
  planes <- get_kvec_list (wavelength m) k_1 k_2 k_3 None ;;
  acc <- xrd_loop m planes acc_empty ;;
  Ok (mkXRD (lattice m) (rec_lattice m) (atoms m) (wavelength m)
            (Some (acc_twotheta acc)) (Some (acc_profile acc))
            (Some (acc_intensity acc)),
      acc_printed acc).

(** [if not self.twotheta_list: self.get_xrd()]: [None] and the empty list
    both compute the pattern. *)
Definition ensure_xrd (m : XRD) : result (XRD * list R) :=
  match twotheta_list m with
  | Some (_ :: _) => Ok (m, [])
  | _ => get_xrd m
  end.

Definition firstline : string := "intensity two_theta d_spacing" ++ newline.

Definition templine (y x d : R) : string :=
  str_float y ++ " " ++ str_float x ++ " " ++ str_float d ++ newline.

(** [get_dspacing]: the model, what was printed, and what was written to
    d_spacing.out, one string per [write]. *)
Definition get_dspacing (m : XRD) : result (XRD * list R * list string) :=
  '(m1, printed) <- ensure_xrd m ;;
  x_list <- from_option TypeError (twotheta_list m1) ;;
  y_list <- from_option TypeError (intensity_list m1) ;;
  '(x_list, y_list) <- sum_intensity x_list y_list default_tolerance ;;
  y_list <- normalize y_list 100 ;;
  let y_list_sort := rev (np_sort y_list) in
  let y_list_argsort := np_argsort y_list in
  x_list_sort <- for_each (index x_list) y_list_argsort ;;
  let x_list_sort := rev x_list_sort in
  let d_list_sort :=
    map (fun x => wavelength m1 / (2 * sin (x * PI / 360))) x_list_sort in
  rows <- for_each (fun i =>
                      y <- index y_list_sort i ;;
                      x <- index x_list_sort i ;;
                      d <- index d_list_sort i ;;
                      Ok (templine y x d))
                   (seq 0 (length x_list_sort)) ;;
  Ok (m1, printed, firstline :: rows).

(** [plot]: the model, what was printed, and the calls to pyplot.  The
    pattern is merged and normalised as in [get_dspacing]; one stem is drawn
    per merged peak. *)
Definition plot (m : XRD) (angles : R * R) (output : option string)
  : result (XRD * list R * list plt_call) :=
  '(m1, printed) <- ensure_xrd m ;;
  x_list <- from_option TypeError (twotheta_list m1) ;;
  y_list <- from_option TypeError (intensity_list m1) ;;
  '(x_list, y_list) <- sum_intensity x_list y_list default_tolerance ;;
  y_list <- normalize y_list 100 ;;
  stems <- for_each (fun i =>
                       x <- index x_list i ;;
                       y <- index y_list i ;;
                       Ok (PltPlot [x; x] [0; y] "-" "#5ab4ac"))
                    (seq 0 (length x_list)) ;;
  Ok (m1, printed,
      stems ++ [PltXlim angles; PltXlabel "2$\theta$"; PltYlabel "Intensity";
                match output with
                | Some name => PltSavefig (name ++ ".png")
                | None => PltShow
                end]).

(** [np.array(lattice_vecs) * lat_const], entry by entry. *)
Definition mscale (c : R) (m : mat3) : mat3 :=
  let '(r1, r2, r3) := m in (vscale c r1, vscale c r2, vscale c r3).

(** The script (lines 286 to 293), from what [readCONTCAR] returned and the
    wavelength argument: what both calls printed, and the file written. *)
Definition main (lat_const : R) (lattice_vecs : mat3) (ats : list atom)
  (wl : string) : result (list R * list string) :=
  xrd_si <- XRD_init (mscale lat_const lattice_vecs) ats wl ;;
  '(xrd_si, printed1) <- get_xrd xrd_si ;;
  '(_, printed2, file) <- get_dspacing xrd_si ;;
  Ok (printed1 ++ printed2, file).

End Program.

(** ** The specification's side

    Definitions that follow the words of the specification, to be compared
    with the program above. *)

(** The order of the enumeration: [h] first, then [k], then [l]. *)
Definition hkl_lt (p q : hkl) : Prop :=
  let '(h, k, l) := p in
  let '(h', k', l') := q in
  (h < h' \/ (h = h' /\ (k < k' \/ (k = k' /\ l < l'))))%Z.

(** What Python promises of the iteration over [set(l)]: every member of [l]
    once, in some order. *)
Definition set_order_ok (set_order : list string -> list string) : Prop :=
  forall l, NoDup (set_order l) /\ (forall e, In e (set_order l) <-> In e l).

(** Every element of the atom list has a line in the form-factor file, with
    its nine coefficients. *)
Definition table_covers (form_file : list (string * list R)) (ats : list atom)
  : Prop :=
  forall a, In a ats ->
    exists nums, get_atom_form form_file (fst a) = Some nums /\
                 (9 <= length nums)%nat.

(** The 4-Gaussian form factor
    [a1*exp(-b1*y^2) + a2*exp(-b2*y^2) + a3*exp(-b3*y^2) + a4*exp(-b4*y^2) + c]
    from the element's table entry [a1 b1 a2 b2 a3 b3 a4 b4 c]. *)
Definition form_factor_spec (form_file : list (string * list R))
  (element : string) (y : R) : option R :=
  match get_atom_form form_file element with
  | Some (a1 :: b1 :: a2 :: b2 :: a3 :: b3 :: a4 :: b4 :: c :: _) =>
      Some (a1 * exp (- b1 * y²) + a2 * exp (- b2 * y²) +
            a3 * exp (- b3 * y²) + a4 * exp (- b4 * y²) + c)
  | _ => None
  end.

(** The structure factor [F(h,k,l)]: the sum over every atom of
    [f(element(atom), y) * exp(2*pi*i * dot(position(atom), [h,k,l]))]. *)
Fixpoint structure_factor_spec (form_file : list (string * list R))
  (ats : list atom) (y : R) (p : hkl) : option C :=
  match ats with
  | [] => Some C0
  | a :: rest =>
      match form_factor_spec form_file (fst a) y,
            structure_factor_spec form_file rest y p with
      | Some f, Some F =>
          Some (Cadd (Cscale f (Cexp_i (2 * PI * dot (snd a) (plane_vec p)))) F)
      | _, _ => None
      end
  end.

(** The entry of an element in the form-factor table, read off the file by
    itself: the numbers of the first line keyed by the element symbol. *)
Definition table_entry (form_file : list (string * list R)) (element : string)
  : option (list R) :=
  match find (fun line : string * list R => String.eqb element (fst line))
             form_file with
  | Some line => Some (snd line)
  | None => None
  end.

(** [a1*exp(-b1*y^2) + a2*exp(-b2*y^2) + a3*exp(-b3*y^2) + a4*exp(-b4*y^2) + c]
    for the coefficients [a1 b1 a2 b2 a3 b3 a4 b4 c]. *)
Definition four_gaussians (coeffs : list R) (y : R) : option R :=
  match coeffs with
  | a1 :: b1 :: a2 :: b2 :: a3 :: b3 :: a4 :: b4 :: c :: _ =>
      Some (a1 * exp (- b1 * y²) + a2 * exp (- b2 * y²) +
            a3 * exp (- b3 * y²) + a4 * exp (- b4 * y²) + c)
  | _ => None
  end.

(** The term of one atom at position [(px, py, pz)] in the structure factor
    of the plane [(h, k, l)]:
    [f(element, y) * exp(2*pi*i * (px*h + py*k + pz*l))], as its real and its
    imaginary part. *)
Definition atom_term (form_file : list (string * list R)) (y : R) (h k l : Z)
  (a : atom) : option (R * R) :=
  let '(element, (px, py, pz)) := a in
  match table_entry form_file element with
  | None => None
  | Some coeffs =>
      match four_gaussians coeffs y with
      | None => None
      | Some f =>
          let phase := 2 * PI * (px * IZR h + py * IZR k + pz * IZR l) in
          Some (f * cos phase, f * sin phase)
      end
  end.

(** The structure factor [F(h,k,l)], summed over every atom of the list:
    its real and its imaginary part. *)
Fixpoint structure_factor_parts (form_file : list (string * list R)) (y : R)
  (h k l : Z) (ats : list atom) : option (R * R) :=
  match ats with
  | [] => Some (0, 0)
  | a :: rest =>
      match atom_term form_file y h k l a,
            structure_factor_parts form_file y h k l rest with
      | Some (re, im), Some (Fre, Fim) => Some (re + Fre, im + Fim)
      | _, _ => None
      end
  end.

(** A reflection record as the specification describes it, written out on
    the numbers: with [q = h*b1 + k*b2 + l*b3] for the rows [b1 b2 b3] of the
    reciprocal lattice, [y = |q| / (4*pi)] and
    [theta = arcsin(wavelength * y)], the intensity is [|F|^2 * LP] for
    [|F|^2 = Re(F)^2 + Im(F)^2] and
    [LP = (1 + cos(2*theta)^2) / (8 * sin(theta)^2 * cos(theta))], and the
    two-theta is [2 * theta * 180 / pi]. *)
Definition reflection_spec (form_file : list (string * list R)) (m : XRD)
  (r : reflection) : Prop :=
  let '(h, k, l, twotheta, inten) := r in
  let '((b1x, b1y, b1z), (b2x, b2y, b2z), (b3x, b3y, b3z)) := rec_lattice m in
  let qx := IZR h * b1x + IZR k * b2x + IZR l * b3x in
  let qy := IZR h * b1y + IZR k * b2y + IZR l * b3y in
  let qz := IZR h * b1z + IZR k * b2z + IZR l * b3z in
  let y := sqrt (qx² + qy² + qz²) / (4 * PI) in
  let theta := asin (wavelength m * y) in
  -1 <= wavelength m * y <= 1 /\
  exists Fre Fim,
    structure_factor_parts form_file y h k l (atoms m) = Some (Fre, Fim) /\
    inten = (Fre² + Fim²) *
            ((1 + (cos (2 * theta))²) / (8 * (sin theta)² * cos theta)) /\
    twotheta = 2 * theta * 180 / PI.

(** The two-theta and intensity sequences are the columns of the reflection
    sequence. *)
Definition parallel (acc : xrd_acc) : Prop :=
  acc_twotheta acc = map (fun r : reflection => snd (fst r)) (acc_profile acc) /\
  acc_intensity acc = map (fun r : reflection => snd r) (acc_profile acc).




(** What [get_dspacing] does once the pattern is there (lines 230 to 258):
    the strings written to d_spacing.out. *)
Definition dspacing_file (np_sort : list R -> list R)
  (np_argsort : list R -> list nat) (str_float : R -> string) (m1 : XRD)
  : result (list string) :=
  x_list <- from_option TypeError (twotheta_list m1) ;;
  y_list <- from_option TypeError (intensity_list m1) ;;
  '(x_list, y_list) <- sum_intensity x_list y_list default_tolerance ;;
  y_list <- normalize y_list 100 ;;
  let y_list_sort := rev (np_sort y_list) in
  let y_list_argsort := np_argsort y_list in
  x_list_sort <- for_each (index x_list) y_list_argsort ;;
  let x_list_sort := rev x_list_sort in
  let d_list_sort :=
    map (fun x => wavelength m1 / (2 * sin (x * PI / 360))) x_list_sort in
  rows <- for_each (fun i =>
                      y <- index y_list_sort i ;;
                      x <- index x_list_sort i ;;
                      d <- index d_list_sort i ;;
                      Ok (templine str_float y x d))
                   (seq 0 (length x_list_sort)) ;;
  Ok (firstline :: rows).

(** The sum of a list of intensities. *)
Definition total (l : list R) : R := fold_right Rplus 0 l.

(** The plane of a reflection record. *)
Definition plane_of (r : reflection) : hkl :=
  let '(h, k, l, _, _) := r in (h, k, l).

(** The opposite plane [(-h, -k, -l)]. *)
Definition hkl_opp (p : hkl) : hkl :=
  let '(h, k, l) := p in (- h, - k, - l)%Z.

(** The planes for which the loop of [get_xrd] appends a record: the angle
    test of line 138 passes and the angle is neither pi/2 nor 0. *)
Definition emits (m : XRD) (p : hkl) : bool :=
  in_unit (wavelength m * y_of m p) &&
  negb (Reqb (asin (wavelength m * y_of m p)) (PI / 2) ||
        Reqb (asin (wavelength m * y_of m p)) 0).

(** The record the loop of [get_xrd] appends for a plane that [emits]
    (intensity 0 where the form factors are missing, which no successful run
    reaches). *)
Definition record_of (form_file : list (string * list R))
  (set_order : list string -> list string) (m : XRD) (p : hkl) : reflection :=
  let '(h, k, l) := p in
  let y := y_of m p in
  let theta := asin (wavelength m * y) in
  (h, k, l, 2 * 180 / PI * theta,
   match s_factors form_file (atoms m) (elements_of set_order m) y p [] with
   | Ok fl => Cnorm (Csum fl) ^ 2 * lp_factor theta
   | Raise _ => 0
   end).

(** The complex conjugate. *)
Definition Cconj (z : C) : C := (fst z, - snd z).

(** The form factor the program uses for an element (0 where
    [get_atom_form] fails, which no successful run reaches), and the
    contribution of one atom to the structure factor with it. *)
Definition form_value (form_file : list (string * list R)) (y : R)
  (element : string) : R :=
  match atom_form form_file element y with
  | Ok v => v
  | Raise _ => 0
  end.

Definition contribution (form_file : list (string * list R)) (y : R) (p : hkl)
  (a : atom) : C :=
  Cscale (form_value form_file y (fst a))
         (Cexp_i (2 * PI * dot (snd a) (plane_vec p))).

(** ** Examples: a cubic cell of silicon *)

Definition cubic (a : R) : mat3 := ((a, 0, 0), (0, a, 0), (0, 0, a)).

(** The iteration order used in the examples: first occurrences, in order. *)
Definition nodup_order : list string -> list string := nodup string_dec.

(** Form factors of silicon (a1 b1 a2 b2 a3 b3 a4 b4 c). *)
Definition si_form_file : list (string * list R) :=
  [ ("Si"%string,
     [6.2915; 2.4386; 3.0353; 32.3337; 1.9891; 0.6785; 1.541; 81.6937; 1.1407]) ].

(** One silicon atom at the origin of the cubic cell of edge 1/2, whose
    reciprocal axes have length [4*pi]. *)
Definition si_model (wl : R) : XRD :=
  mkXRD (cubic (1 / 2)) (cubic (4 * PI)) [("Si"%string, (0, 0, 0))] wl
        None None None.

(** Form factors of silicon and oxygen, and a cell with two atoms of each
    at general positions, listed so that the elements alternate. *)
Definition sio_form_file : list (string * list R) :=
  [ ("Si"%string,
     [6.2915; 2.4386; 3.0353; 32.3337; 1.9891; 0.6785; 1.541; 81.6937; 1.1407]);
    ("O"%string,
     [3.0485; 13.2771; 2.2868; 5.7011; 1.5463; 0.3239; 0.867; 32.9089; 0.2508]) ].

Definition sio_model : XRD :=
  mkXRD (cubic (1 / 2)) (cubic (4 * PI))
        [ ("Si"%string, (0, 0, 0));
          ("O"%string, (1 / 2, 1 / 2, 0));
          ("Si"%string, (1 / 4, 1 / 4, 1 / 4));
          ("O"%string, (1 / 4, 0, 1 / 2)) ]
        (1 / 2) None None None.

(** A sort for the examples: insertion by key, stable. *)
Fixpoint insert_key {A : Type} (key : A -> R) (a : A) (l : list A) : list A :=
  match l with
  | [] => [a]
  | b :: rest =>
      if Rle_dec (key a) (key b) then a :: b :: rest
      else b :: insert_key key a rest
  end.

Fixpoint sort_key {A : Type} (key : A -> R) (l : list A) : list A :=
  match l with
  | [] => []
  | a :: rest => insert_key key a (sort_key key rest)
  end.

Definition insertion_sort (l : list R) : list R := sort_key (fun x => x) l.

Definition insertion_argsort (l : list R) : list nat :=
  sort_key (fun i => nth i l 0) (seq 0 (length l)).


(** * Properties *)

Lemma bind_ok_inv {A B : Type} (r : result A) (k : A -> result B) (b : B) :
  bind r k = Ok b -> exists a, r = Ok a /\ k a = Ok b.
Proof.
  destruct r as [a | e]; simpl; intros H.
  - exists a; split; [reflexivity | exact H].
  - discriminate H.
Qed.

(** ** Properties of the multiplicity merge *)

Section MergeFacts.

Variable num : Type.
Variable sub : num -> num -> num.
Variable absn : num -> num.
Variable leb : num -> num -> bool.
Variable add : num -> num -> num.

Lemma where_first_lt tol l x j :
  where_first num sub absn leb tol l x = Some j -> (j < length l)%nat.
Proof.
  revert j; induction l as [| r rest IH]; simpl; intros j H; [discriminate |].
  destruct (close num sub absn leb tol r x).
  - injection H as <-; lia.
  - destruct (where_first num sub absn leb tol rest x) as [j' |]; simpl in H; [| discriminate].
    injection H as <-. specialize (IH j' eq_refl). lia.
Qed.

Lemma where_first_some tol l x j :
  where_first num sub absn leb tol l x = Some j ->
  (exists r, nth_error l j = Some r /\ close num sub absn leb tol r x = true) /\
  (forall i r', (i < j)%nat -> nth_error l i = Some r' -> close num sub absn leb tol r' x = false).
Proof.
  revert j; induction l as [| r rest IH]; simpl; intros j H; [discriminate |].
  destruct (close num sub absn leb tol r x) eqn:E.
  - injection H as <-. split; [exists r; auto | intros i r' Hi; lia].
  - destruct (where_first num sub absn leb tol rest x) as [j' |]; simpl in H; [| discriminate].
    injection H as <-. destruct (IH j' eq_refl) as [[r0 [Hn Hc]] Hmin].
    split; [exists r0; auto |].
    intros [| i] r' Hi Hn'; simpl in Hn'.
    + injection Hn' as <-; exact E.
    + apply (Hmin i r'); [lia | exact Hn'].
Qed.

Lemma where_first_none tol l x :
  where_first num sub absn leb tol l x = None <->
  (forall r, In r l -> close num sub absn leb tol r x = false).
Proof.
  induction l as [| r rest IH]; simpl.
  - split; [intros _ r [] | reflexivity].
  - destruct (close num sub absn leb tol r x) eqn:E.
    + split; [discriminate |]. intros H. specialize (H r (or_introl eq_refl)).
      congruence.
    + destruct (where_first num sub absn leb tol rest x) as [j |]; simpl.
      * split; [discriminate |]. intros H.
        assert (Hn : Some j = None) by (apply IH; intros r0 Hr0; apply H; auto).
        discriminate Hn.
      * split; [| reflexivity]. intros _ r0 [<- | Hr0]; [exact E |].
        apply IH; auto.
Qed.

Lemma where_first_least tol l x j r :
  nth_error l j = Some r -> close num sub absn leb tol r x = true ->
  (forall i r', (i < j)%nat -> nth_error l i = Some r' ->
                close num sub absn leb tol r' x = false) ->
  where_first num sub absn leb tol l x = Some j.
Proof.
  revert j; induction l as [| r0 rest IH]; intros j Hn Hc Hmin.
  - destruct j; discriminate Hn.
  - simpl. destruct j as [| j]; simpl in Hn.
    + injection Hn as ->. rewrite Hc. reflexivity.
    + rewrite (Hmin O r0); [| lia | reflexivity].
      rewrite (IH j Hn Hc); [reflexivity |].
      intros i r' Hi Hn'. apply (Hmin (S i) r'); [lia | exact Hn'].
Qed.

Lemma add_at_length j y l : length (add_at num add j y l) = length l.
Proof.
  revert j; induction l as [| v rest IH]; intros [| j]; simpl; auto.
Qed.

(** One more entry at the end of the input is one more step of the scan. *)
Lemma merge_loop_snoc tol xs : forall ys nx ny nx' ny' x y,
  length xs = length ys ->
  merge_loop num sub absn leb add tol xs ys nx ny = Ok (nx', ny') ->
  merge_loop num sub absn leb add tol (xs ++ [x]) (ys ++ [y]) nx ny =
  merge_loop num sub absn leb add tol [x] [y] nx' ny'.
Proof.
  induction xs as [| x0 xs IH]; intros ys nx ny nx' ny' x y Hlen H.
  - destruct ys; [| discriminate Hlen]. simpl in H. injection H as <- <-.
    reflexivity.
  - destruct ys as [| y0 ys]; [discriminate Hlen |].
    simpl in Hlen. injection Hlen as Hlen.
    simpl in H. simpl app. cbn [merge_loop].
    destruct (where_first num sub absn leb tol nx x0); apply IH; assumption.
Qed.

Lemma merge_loop_total tol xs : forall ys nx ny,
  length xs = length ys -> length nx = length ny ->
  exists nx' ny', merge_loop num sub absn leb add tol xs ys nx ny = Ok (nx', ny') /\
                  length nx' = length ny'.
Proof.
  induction xs as [| x0 xs IH]; intros ys nx ny Hlen Hacc.
  - exists nx, ny; split; [reflexivity | exact Hacc].
  - destruct ys as [| y0 ys]; [discriminate Hlen |].
    simpl in Hlen. injection Hlen as Hlen. simpl.
    destruct (where_first num sub absn leb tol nx x0).
    + apply IH; [exact Hlen | rewrite add_at_length; exact Hacc].
    + apply IH; [exact Hlen |]. rewrite !length_app; simpl; lia.
Qed.

(** The loop keeps its representatives separated and its lists parallel. *)
Lemma merge_loop_inv tol xs : forall ys nx ny nx' ny',
  merge_loop num sub absn leb add tol xs ys nx ny = Ok (nx', ny') ->
  length nx = length ny -> separated num sub absn leb tol [] nx ->
  length nx' = length ny' /\ separated num sub absn leb tol [] nx'.
Proof.
  assert (Hsnoc : forall l reps x, separated num sub absn leb tol reps l ->
            where_first num sub absn leb tol (reps ++ l) x = None ->
            separated num sub absn leb tol reps (l ++ [x])).
  { induction l as [| a l IHl]; simpl; intros reps x Hs Hw.
    - rewrite app_nil_r in Hw. auto.
    - destruct Hs as [Ha Hs]. split; [exact Ha |].
      apply IHl; [exact Hs |]. rewrite <- app_assoc. exact Hw. }
  induction xs as [| x0 xs IH]; intros ys nx ny nx' ny' H Hlen Hsep.
  - simpl in H. injection H as <- <-. auto.
  - destruct ys as [| y0 ys]; [discriminate H |]. simpl in H.
    destruct (where_first num sub absn leb tol nx x0) eqn:E.
    + apply (IH _ _ _ _ _ H); [rewrite add_at_length; exact Hlen | exact Hsep].
    + apply (IH _ _ _ _ _ H); [rewrite !length_app; simpl; lia |].
      apply Hsnoc; [exact Hsep | exact E].
Qed.

(** Separated representatives are each appended again by the scan. *)
Lemma merge_loop_separated tol l : forall ys nx ny,
  length l = length ys -> separated num sub absn leb tol nx l ->
  merge_loop num sub absn leb add tol l ys nx ny = Ok (nx ++ l, ny ++ ys).
Proof.
  induction l as [| x l IH]; intros ys nx ny Hlen Hsep.
  - destruct ys; [| discriminate Hlen]. simpl. rewrite !app_nil_r. reflexivity.
  - destruct ys as [| y ys]; [discriminate Hlen |].
    simpl in Hlen. injection Hlen as Hlen. destruct Hsep as [Hw Hsep].
    simpl. rewrite Hw. rewrite (IH ys _ _ Hlen Hsep).
    rewrite <- !app_assoc. reflexivity.
Qed.

Lemma sum_intensity_gen_idem tol xs ys nx ny :
  sum_intensity_gen num sub absn leb add xs ys tol = Ok (nx, ny) ->
  sum_intensity_gen num sub absn leb add nx ny tol = Ok (nx, ny).
Proof.
  unfold sum_intensity_gen. intros H.
  destruct (merge_loop_inv _ _ _ _ _ _ _ H eq_refl I) as [Hlen Hsep].
  apply (merge_loop_separated tol nx ny [] [] Hlen Hsep).
Qed.

Lemma add_at_same j y l v :
  nth_error l j = Some v -> nth_error (add_at num add j y l) j = Some (add v y).
Proof.
  revert j; induction l as [| a l IH]; intros [| j] H; simpl in *;
    try discriminate.
  - injection H as ->. reflexivity.
  - apply IH; exact H.
Qed.

Lemma add_at_other j y l i :
  i <> j -> nth_error (add_at num add j y l) i = nth_error l i.
Proof.
  revert j i; induction l as [| a l IH]; intros [| j] [| i] H; simpl;
    try reflexivity; try congruence.
  apply IH. congruence.
Qed.

(** The scan succeeds exactly when [y_list] is not the shorter list. *)
Lemma merge_loop_returns tol xs : forall ys nx ny,
  (length xs <= length ys)%nat ->
  exists nx' ny', merge_loop num sub absn leb add tol xs ys nx ny = Ok (nx', ny').
Proof.
  induction xs as [| x0 xs IH]; intros ys nx ny Hlen.
  - exists nx, ny; reflexivity.
  - destruct ys as [| y0 ys]; [simpl in Hlen; lia |].
    simpl in Hlen. simpl.
    destruct (where_first num sub absn leb tol nx x0); apply IH; lia.
Qed.

End MergeFacts.

Lemma Rleb_true a b : Rleb a b = true <-> a <= b.
Proof.
  unfold Rleb. destruct (Rle_dec a b); split; intros H;
    try reflexivity; try assumption; try discriminate; contradiction.
Qed.

Lemma Rleb_false a b : Rleb a b = false <-> ~ a <= b.
Proof.
  unfold Rleb. destruct (Rle_dec a b); split; intros H;
    try reflexivity; try assumption; try discriminate; contradiction.
Qed.

Lemma Reqb_true a b : Reqb a b = true <-> a = b.
Proof.
  unfold Reqb. destruct (Req_dec_T a b); split; intros H;
    try reflexivity; try assumption; try discriminate; contradiction.
Qed.

Lemma Reqb_false a b : Reqb a b = false <-> a <> b.
Proof.
  unfold Reqb. destruct (Req_dec_T a b); split; intros H;
    try reflexivity; try assumption; try discriminate; contradiction.
Qed.

Lemma in_unit_true s : in_unit s = true <-> -1 <= s <= 1.
Proof.
  unfold in_unit. rewrite andb_true_iff, !Rleb_true. reflexivity.
Qed.

Lemma close_R tol r x :
  close R Rminus Rabs Rleb tol r x = true <-> Rabs (r - x) <= tol.
Proof. unfold close. apply Rleb_true. Qed.

Lemma close_R_false tol r x :
  close R Rminus Rabs Rleb tol r x = false <-> ~ Rabs (r - x) <= tol.
Proof. unfold close. apply Rleb_false. Qed.

(** C4: the merge scans the entries in order against the peaks merged so
    far.  Scanning nothing gives no peak.  After any parallel lists [xs],
    [ys] have been scanned into the peaks [nx] with intensities [ny], one
    more entry [(x, y)] is treated as follows: when some peak is within 1e-5
    of [x], the intensity [y] is added to the first such peak, whose
    two-theta and all other peaks stay as they are; when no peak is within
    1e-5 of [x], the entry becomes a new last peak. *)
Theorem sum_intensity_scan (xs ys : list R) (x y : R) :
  length xs = length ys ->
  sum_intensity [] [] default_tolerance = Ok ([], []) /\
  exists nx ny,
    sum_intensity xs ys default_tolerance = Ok (nx, ny) /\
    length nx = length ny /\
    (forall j r,
        nth_error nx j = Some r -> Rabs (r - x) <= 1e-5 ->
        (forall i r', (i < j)%nat -> nth_error nx i = Some r' ->
                      ~ Rabs (r' - x) <= 1e-5) ->
        exists ny',
          sum_intensity (xs ++ [x]) (ys ++ [y]) default_tolerance = Ok (nx, ny') /\
          length ny' = length ny /\
          (forall v, nth_error ny j = Some v -> nth_error ny' j = Some (v + y)) /\
          (forall i, i <> j -> nth_error ny' i = nth_error ny i)) /\
    ((forall r, In r nx -> ~ Rabs (r - x) <= 1e-5) ->
     sum_intensity (xs ++ [x]) (ys ++ [y]) default_tolerance =
     Ok (nx ++ [x], ny ++ [y])).
Proof.
  intros Hlen. split; [reflexivity |].
  unfold sum_intensity, sum_intensity_gen.
  destruct (merge_loop_total R Rminus Rabs Rleb Rplus default_tolerance
              xs ys [] [] Hlen eq_refl) as [nx [ny [Hm Hl]]].
  exists nx, ny. split; [exact Hm |]. split; [exact Hl |].
  rewrite (merge_loop_snoc R Rminus Rabs Rleb Rplus default_tolerance
             xs ys [] [] nx ny x y Hlen Hm).
  split.
  - intros j r Hn Hc Hmin.
    assert (Hw : where_first R Rminus Rabs Rleb default_tolerance nx x = Some j).
    { apply (where_first_least R Rminus Rabs Rleb default_tolerance nx x j r Hn).
      - apply close_R. exact Hc.
      - intros i r' Hi Hn'. apply close_R_false. apply (Hmin i r' Hi Hn'). }
    exists (add_at R Rplus j y ny). simpl. rewrite Hw.
    split; [reflexivity |]. split; [apply add_at_length |].
    split.
    + intros v Hv. apply add_at_same. exact Hv.
    + intros i Hi. apply add_at_other. exact Hi.
  - intros Hfar.
    assert (Hw : where_first R Rminus Rabs Rleb default_tolerance nx x = None).
    { apply where_first_none. intros r Hr. apply close_R_false. apply Hfar, Hr. }
    simpl. rewrite Hw. reflexivity.
Qed.

(** C6: merging the output of the merge again changes nothing.  The merge
    returns exactly when the intensity list is not the shorter one, and its
    output, merged again with the same tolerance 1e-5, is that output. *)
Theorem sum_intensity_idempotent (xs ys : list R) :
  (length xs <= length ys)%nat ->
  exists nx ny,
    sum_intensity xs ys default_tolerance = Ok (nx, ny) /\
    sum_intensity nx ny default_tolerance = Ok (nx, ny).
Proof.
  intros Hlen.
  destruct (merge_loop_returns R Rminus Rabs Rleb Rplus default_tolerance
              xs ys [] [] Hlen) as [nx [ny Hm]].
  exists nx, ny. split; [exact Hm |].
  apply (sum_intensity_gen_idem R Rminus Rabs Rleb Rplus default_tolerance xs ys).
  exact Hm.
Qed.

Lemma sum_intensity_idempotent_witness :
  (length [30; 45] <= length [2; 3])%nat /\
  exists nx ny,
    sum_intensity [30; 45] [2; 3] default_tolerance = Ok (nx, ny) /\
    sum_intensity nx ny default_tolerance = Ok (nx, ny).
Proof.
  split; [simpl; lia |].
  apply (sum_intensity_idempotent [30; 45] [2; 3]). simpl; lia.
Defined.

(** ** Normalisation *)

Lemma fold_max_spec (l : list R) : forall v,
  let m := fold_left (fun m x => if Rlt_dec m x then x else m) l v in
  (m = v \/ In m l) /\ v <= m /\ (forall y, In y l -> y <= m).
Proof.
  induction l as [| a l IH]; intros v; simpl.
  - split; [left; reflexivity |]. split; [lra | intros y []].
  - destruct (Rlt_dec v a) as [Hlt | Hge].
    + destruct (IH a) as [Hin [Hle Hall]]. simpl in *.
      split; [right; destruct Hin as [-> | Hin]; auto |].
      split; [lra |]. intros y [<- | Hy]; [exact Hle | apply Hall, Hy].
    + destruct (IH v) as [Hin [Hle Hall]]. simpl in *.
      split; [destruct Hin as [-> | Hin]; auto |].
      split; [exact Hle |]. intros y [<- | Hy]; [lra | apply Hall, Hy].
Qed.

Lemma py_max_spec (l : list R) (m : R) :
  py_max l = Ok m -> In m l /\ (forall y, In y l -> y <= m).
Proof.
  destruct l as [| v l]; simpl; intros H; [discriminate |].
  injection H as <-.
  destruct (fold_max_spec l v) as [Hin [Hle Hall]]. simpl in *.
  split.
  - destruct Hin as [-> | Hin]; auto.
  - intros y [<- | Hy]; [exact Hle | apply Hall, Hy].
Qed.

Lemma py_max_returns (l : list R) : l <> [] -> exists m, py_max l = Ok m.
Proof.
  destruct l as [| v l]; [congruence |]. intros _. simpl. eauto.
Qed.

(** C5: after normalisation the maximum is exactly 100.  For a list of
    intensities whose maximum [m] is positive, [normalize] returns the list
    of the [y / m * 100], of the same length; 100 occurs in it and every
    entry is at most 100. *)
Theorem normalize_max_100 (y_list : list R) (m : R) :
  In m y_list -> (forall y, In y y_list -> y <= m) -> 0 < m ->
  exists out,
    normalize y_list 100 = Ok out /\
    out = map (fun y => y / m * 100) y_list /\
    length out = length y_list /\
    In 100 out /\
    (forall v, In v out -> v <= 100).
Proof.
  intros Hin Hmax Hpos.
  assert (Hne : y_list <> []) by (intros ->; destruct Hin).
  destruct (py_max_returns y_list Hne) as [m' Hm'].
  destruct (py_max_spec y_list m' Hm') as [Hin' Hmax'].
  assert (m' = m) as -> by (apply Rle_antisym; auto).
  exists (map (fun y => y / m * 100) y_list).
  unfold normalize. rewrite Hm'. simpl.
  split; [reflexivity |]. split; [reflexivity |].
  split; [apply length_map |]. split.
  - apply in_map_iff. exists m. split; [field; lra | exact Hin].
  - intros v Hv. apply in_map_iff in Hv. destruct Hv as [y [<- Hy]].
    specialize (Hmax y Hy).
    assert (y / m <= 1).
    { apply (Rmult_le_reg_r m); [exact Hpos |].
      unfold Rdiv. rewrite Rmult_assoc, Rinv_l by lra. lra. }
    lra.
Qed.

Lemma normalize_max_100_witness :
  exists out, normalize [50; 200; 20] 100 = Ok out /\ In 100 out.
Proof.
  assert (Hin : In 200 [50; 200; 20]) by (simpl; auto).
  assert (Hmax : forall y, In y [50; 200; 20] -> y <= 200).
  { intros y [<- | [<- | [<- | []]]]; lra. }
  destruct (normalize_max_100 [50; 200; 20] 200 Hin Hmax ltac:(lra))
    as [out [Hn [_ [_ [H100 _]]]]].
  exists out. split; [exact Hn | exact H100].
Defined.

(** ** Plane enumeration *)

Section SortedOne.

Context {A : Type}.
Variable ltA : A -> A -> Prop.

Lemma StronglySorted_app (l1 l2 : list A) :
  StronglySorted ltA l1 -> StronglySorted ltA l2 ->
  (forall a b, In a l1 -> In b l2 -> ltA a b) ->
  StronglySorted ltA (l1 ++ l2).
Proof.
  induction l1 as [| a l1 IH]; simpl; intros H1 H2 H12; [exact H2 |].
  inversion H1 as [| ? ? Hs Hall]; subst.
  constructor.
  - apply IH; auto.
  - apply Forall_app. split; [exact Hall |].
    apply Forall_forall. intros b Hb. apply H12; auto.
Qed.

End SortedOne.

Section SortedTwo.

Context {A B : Type}.
Variable ltA : A -> A -> Prop.
Variable ltB : B -> B -> Prop.

Lemma StronglySorted_map (f : A -> B) (l : list A) :
  (forall a b, ltA a b -> ltB (f a) (f b)) ->
  StronglySorted ltA l -> StronglySorted ltB (map f l).
Proof.
  intros Hf. induction 1 as [| a l Hs IH Hall]; simpl; constructor.
  - exact IH.
  - apply Forall_forall. intros b Hb. apply in_map_iff in Hb.
    destruct Hb as [a' [<- Ha']]. apply Hf.
    rewrite Forall_forall in Hall. apply Hall, Ha'.
Qed.

Lemma StronglySorted_filter (f : A -> bool) (l : list A) :
  StronglySorted ltA l -> StronglySorted ltA (filter f l).
Proof.
  induction 1 as [| a l Hs IH Hall]; simpl; [constructor |].
  destruct (f a); [| exact IH]. constructor; [exact IH |].
  apply Forall_forall. intros b Hb. apply filter_In in Hb.
  rewrite Forall_forall in Hall. apply Hall, Hb.
Qed.

Lemma StronglySorted_flat_map (f : A -> list B) (l : list A) :
  StronglySorted ltA l ->
  (forall a, StronglySorted ltB (f a)) ->
  (forall a a' b b', ltA a a' -> In b (f a) -> In b' (f a') -> ltB b b') ->
  StronglySorted ltB (flat_map f l).
Proof.
  intros Hl Hf Hcross. induction Hl as [| a l Hs IH Hall]; simpl; [constructor |].
  apply (StronglySorted_app ltB); [apply Hf | exact IH |].
  intros b b' Hb Hb'. apply in_flat_map in Hb'. destruct Hb' as [a' [Ha' Hb']].
  rewrite Forall_forall in Hall. apply (Hcross a a'); auto.
Qed.

End SortedTwo.

Lemma seq_sorted (n : nat) : forall a, StronglySorted lt (seq a n).
Proof.
  induction n as [| n IH]; intros a; simpl; constructor; [apply IH |].
  apply Forall_forall. intros b Hb. apply in_seq in Hb. lia.
Qed.

Lemma xrange_sorted (lo hi : Z) : StronglySorted Z.lt (xrange lo hi).
Proof.
  unfold xrange. apply (StronglySorted_map lt); [intros a b; lia |].
  apply seq_sorted.
Qed.

Lemma xrange_In (lo hi i : Z) : In i (xrange lo hi) <-> (lo <= i < hi)%Z.
Proof.
  unfold xrange. rewrite in_map_iff. split.
  - intros [n [<- Hn]]. apply in_seq in Hn. lia.
  - intros H. exists (Z.to_nat (i - lo)). split; [lia |].
    apply in_seq. lia.
Qed.

Lemma product3_In (r : list Z) (h k l : Z) :
  In (h, k, l) (product3 r) <-> In h r /\ In k r /\ In l r.
Proof.
  unfold product3. rewrite in_flat_map. split.
  - intros [h' [Hh H]]. apply in_flat_map in H. destruct H as [k' [Hk H]].
    apply in_map_iff in H. destruct H as [l' [E Hl]].
    injection E as <- <- <-. auto.
  - intros [Hh [Hk Hl]]. exists h. split; [exact Hh |].
    apply in_flat_map. exists k. split; [exact Hk |].
    apply in_map_iff. exists l. auto.
Qed.

Lemma product3_sorted (r : list Z) :
  StronglySorted Z.lt r -> StronglySorted hkl_lt (product3 r).
Proof.
  intros Hr. unfold product3.
  apply (StronglySorted_flat_map Z.lt); [exact Hr | |].
  - intros h. apply (StronglySorted_flat_map Z.lt); [exact Hr | |].
    + intros k. apply (StronglySorted_map Z.lt); [| exact Hr].
      intros l l' Hl. simpl. lia.
    + intros k k' p p' Hk Hp Hp'.
      apply in_map_iff in Hp. destruct Hp as [l [<- _]].
      apply in_map_iff in Hp'. destruct Hp' as [l' [<- _]].
      simpl. lia.
  - intros h h' p p' Hh Hp Hp'.
    apply in_flat_map in Hp. destruct Hp as [k [_ Hp]].
    apply in_map_iff in Hp. destruct Hp as [l [<- _]].
    apply in_flat_map in Hp'. destruct Hp' as [k' [_ Hp']].
    apply in_map_iff in Hp'. destruct Hp' as [l' [<- _]].
    simpl. lia.
Qed.

Lemma kvec_scan_In (wl : R) (k_1 k_2 k_3 : vec3) (b h k l : Z) :
  In (h, k, l) (kvec_scan wl k_1 k_2 k_3 b) <->
  (- b <= h <= b /\ - b <= k <= b /\ - b <= l <= b)%Z /\
  -1 <= sin_twotheta wl k_1 k_2 k_3 (h, k, l) <= 1.
Proof.
  unfold kvec_scan. rewrite filter_In, product3_In, !xrange_In, in_unit_true.
  split; intros [H1 H2]; (split; [lia | exact H2]).
Qed.

Lemma sin_twotheta_spec (wl : R) (k_1 k_2 k_3 : vec3) (p : hkl) :
  sin_twotheta wl k_1 k_2 k_3 p = wl * norm (lincomb p k_1 k_2 k_3) / (4 * PI).
Proof.
  unfold sin_twotheta. field. apply PI_neq0.
Qed.



(** ** The enumeration bound *)

Lemma ceil_spec (x : R) (n : Z) : IZR n - 1 < x <= IZR n -> ceil x = n.
Proof.
  intros [Hlo Hhi]. unfold ceil.
  assert (E : (- n + 1)%Z = up (- x)).
  { apply tech_up; rewrite plus_IZR, opp_IZR; lra. }
  lia.
Qed.

Lemma ceil_IZR (n : Z) : ceil (IZR n) = n.
Proof. apply ceil_spec. lra. Qed.

Lemma ceil_bounds (x : R) : IZR (ceil x) - 1 < x <= IZR (ceil x).
Proof.
  unfold ceil. destruct (archimed (- x)) as [H1 H2].
  rewrite minus_IZR. lra.
Qed.

Lemma axis_index_spec (wl : R) (k : vec3) :
  wl <> 0 -> norm k <> 0 ->
  axis_index wl k = Ok (ceil (4 * PI / (wl * norm k))).
Proof.
  intros Hw Hk. unfold axis_index.
  destruct (Req_dec_T wl 0) as [E | _]; [contradiction |].
  destruct (Req_dec_T (norm k) 0) as [E | _]; [contradiction |].
  do 2 f_equal. field. split; assumption.
Qed.

(** Without an explicit bound: the cap 5 on the largest of the three
    [ceil(4*pi / (wavelength * |k_i|))]. *)
Lemma resolve_bound_derived (wl : R) (k_1 k_2 k_3 : vec3) :
  wl <> 0 -> norm k_1 <> 0 -> norm k_2 <> 0 -> norm k_3 <> 0 ->
  resolve_bound wl k_1 k_2 k_3 None =
  Ok (Z.min 5 (Z.max (ceil (4 * PI / (wl * norm k_1)))
              (Z.max (ceil (4 * PI / (wl * norm k_2)))
                     (ceil (4 * PI / (wl * norm k_3)))))).
Proof.
  intros Hw H1 H2 H3. unfold resolve_bound.
  rewrite !axis_index_spec by assumption. reflexivity.
Qed.

(** An explicit bound other than 0 is used as it is. *)
Lemma resolve_bound_explicit (wl : R) (k_1 k_2 k_3 : vec3) (b : Z) :
  b <> 0%Z -> resolve_bound wl k_1 k_2 k_3 (Some b) = Ok b.
Proof.
  intros Hb. unfold resolve_bound.
  destruct (Z.eqb_spec b 0) as [E | _]; [contradiction | reflexivity].
Qed.

(** The explicit bound 0 is not: it is replaced by the derived bound. *)
Lemma resolve_bound_zero (wl : R) (k_1 k_2 k_3 : vec3) :
  resolve_bound wl k_1 k_2 k_3 (Some 0%Z) = resolve_bound wl k_1 k_2 k_3 None.
Proof. reflexivity. Qed.

Lemma norm_axis_x (a : R) : 0 <= a -> norm (a, 0, 0) = a.
Proof.
  intros Ha. unfold norm, dot.
  replace (a * a + 0 * 0 + 0 * 0) with (a * a) by ring.
  apply sqrt_square, Ha.
Qed.

Lemma norm_axis_y (a : R) : 0 <= a -> norm (0, a, 0) = a.
Proof.
  intros Ha. unfold norm, dot.
  replace (0 * 0 + a * a + 0 * 0) with (a * a) by ring.
  apply sqrt_square, Ha.
Qed.

Lemma norm_axis_z (a : R) : 0 <= a -> norm (0, 0, a) = a.
Proof.
  intros Ha. unfold norm, dot.
  replace (0 * 0 + 0 * 0 + a * a) with (a * a) by ring.
  apply sqrt_square, Ha.
Qed.

(** C3, at the explicit bound 0.  For the reciprocal lattice of the cubic
    cell of edge 1/2 (axes of length [4*pi]) and wavelength 1,
    [get_kvec_list] called with [max_index = 0] enumerates with the derived
    bound 1, not with 0: the plane (1, 0, 0), outside the cube [-0, 0]^3, is
    returned. *)
Theorem get_kvec_list_explicit_zero :
  resolve_bound 1 (4 * PI, 0, 0) (0, 4 * PI, 0) (0, 0, 4 * PI) (Some 0%Z) = Ok 1%Z /\
  exists planes,
    get_kvec_list 1 (4 * PI, 0, 0) (0, 4 * PI, 0) (0, 0, 4 * PI) (Some 0%Z) =
    Ok planes /\
    In (1, 0, 0)%Z planes.
Proof.
  assert (Hpi := PI_RGT_0).
  assert (Hb : resolve_bound 1 (4 * PI, 0, 0) (0, 4 * PI, 0) (0, 0, 4 * PI)
                 (Some 0%Z) = Ok 1%Z).
  { rewrite resolve_bound_zero, resolve_bound_derived;
      rewrite ?norm_axis_x, ?norm_axis_y, ?norm_axis_z; try lra.
    replace (4 * PI / (1 * (4 * PI))) with (IZR 1) by (field; lra).
    rewrite ceil_IZR. reflexivity. }
  split; [exact Hb |].
  exists (kvec_scan 1 (4 * PI, 0, 0) (0, 4 * PI, 0) (0, 0, 4 * PI) 1).
  unfold get_kvec_list. rewrite Hb. simpl. split; [reflexivity |].
  apply kvec_scan_In. split; [lia |].
  unfold sin_twotheta, lincomb, vadd, vscale.
  replace (1 * (4 * PI) + 0 * 0 + 0 * 0, 1 * 0 + 0 * (4 * PI) + 0 * 0,
           1 * 0 + 0 * 0 + 0 * (4 * PI)) with (4 * PI, 0, 0)
    by (f_equal; [f_equal |]; ring).
  rewrite norm_axis_x by lra.
  replace (1 * (4 * PI / 4 / PI)) with 1 by (field; lra). lra.
Qed.

(** ** The constructor *)

Lemma inv_returns (lat : mat3) : det lat <> 0 -> exists i, inv lat = Ok i.
Proof.
  intros Hd. destruct lat as [[[[a b] c] [[d e] f]] [[g h] i]].
  unfold inv. destruct (Req_dec_T _ 0) as [E | _]; [contradiction |].
  eexists; reflexivity.
Qed.

Lemma get_wavelength_unknown (anode : string) :
  ~ In anode [ "CuKa1"; "CuKa2"; "CuKb1"; "WLa1"; "WLa2" ]%string ->
  get_wavelength anode = Raise KeyError.
Proof.
  intros Hnot. unfold get_wavelength, xray_wavelength. cbn [dict_get].
  repeat match goal with
         | |- context [String.eqb ?k anode] =>
             destruct (String.eqb_spec k anode) as [E | _];
             [exfalso; apply Hnot; rewrite <- E; cbn [In]; tauto |]
         end.
  reflexivity.
Qed.

(** C9: wavelength resolution in the constructor, for a lattice that can be
    inverted (the constructor inverts the lattice first).  A specifier that
    [float] parses gives that number as the wavelength.  A specifier that
    [float] refuses is looked up among the five anodes with the values
    1.5405981, 1.54443, 1.39225, 1.47642, 1.48748; any other name raises
    [KeyError] and no model is built. *)
Theorem XRD_init_wavelength (py_float : string -> option R)
  (lat : mat3) (ats : list atom) (wl : string) :
  det lat <> 0 ->
  (forall v, py_float wl = Some v ->
     exists m, XRD_init py_float lat ats wl = Ok m /\ wavelength m = v) /\
  (py_float wl = None ->
     (forall v,
        In (wl, v) [ ("CuKa1"%string, 1.5405981); ("CuKa2"%string, 1.54443);
                     ("CuKb1"%string, 1.39225); ("WLa1"%string, 1.47642);
                     ("WLa2"%string, 1.48748) ] ->
        exists m, XRD_init py_float lat ats wl = Ok m /\ wavelength m = v) /\
     (~ In wl [ "CuKa1"; "CuKa2"; "CuKb1"; "WLa1"; "WLa2" ]%string ->
      XRD_init py_float lat ats wl = Raise KeyError)).
Proof.
  intros Hd. destruct (inv_returns lat Hd) as [i Hi].
  unfold XRD_init. rewrite Hi. cbn [bind]. split.
  - intros v Hv. rewrite Hv. cbn [bind]. eexists. split; reflexivity.
  - intros Hnone. rewrite Hnone. split.
    + intros v Hin. cbn [In] in Hin.
      destruct Hin as [E | [E | [E | [E | [E | []]]]]];
        injection E as <- <-; eexists; split; reflexivity.
    + intros Hnot. rewrite (get_wavelength_unknown wl Hnot). reflexivity.
Qed.

Lemma XRD_init_wavelength_witness :
  det ((1, 0, 0), (0, 1, 0), (0, 0, 1)) <> 0 /\
  exists m,
    XRD_init (fun _ => None) ((1, 0, 0), (0, 1, 0), (0, 0, 1)) [] "CuKa1" = Ok m /\
    wavelength m = 1.5405981.
Proof.
  assert (Hd : det ((1, 0, 0), (0, 1, 0), (0, 0, 1)) <> 0)
    by (unfold det; lra).
  split; [exact Hd |].
  destruct (XRD_init_wavelength (fun _ => None)
              ((1, 0, 0), (0, 1, 0), (0, 0, 1)) [] "CuKa1" Hd) as [_ Hname].
  destruct (Hname eq_refl) as [Hknown _].
  apply Hknown. simpl. auto.
Defined.

(** ** Structure factors *)

Lemma Cadd_comm (a b : C) : Cadd a b = Cadd b a.
Proof. destruct a, b. unfold Cadd. simpl. f_equal; ring. Qed.

Lemma Cadd_assoc (a b c : C) : Cadd a (Cadd b c) = Cadd (Cadd a b) c.
Proof. destruct a, b, c. unfold Cadd. simpl. f_equal; ring. Qed.

Lemma Cadd_0_l (a : C) : Cadd C0 a = a.
Proof. destruct a. unfold Cadd, C0. simpl. f_equal; ring. Qed.

Lemma fold_Cadd (l : list C) : forall z, fold_left Cadd l z = Cadd z (Csum l).
Proof.
  unfold Csum. induction l as [| a l IH]; intros z; simpl.
  - rewrite Cadd_comm, Cadd_0_l. reflexivity.
  - rewrite (IH (Cadd z a)), (IH (Cadd C0 a)), Cadd_0_l, Cadd_assoc.
    reflexivity.
Qed.

Lemma Csum_cons (a : C) (l : list C) : Csum (a :: l) = Cadd a (Csum l).
Proof.
  unfold Csum at 1. simpl. rewrite fold_Cadd, Cadd_0_l. reflexivity.
Qed.

Lemma Csum_perm (l l' : list C) : Permutation l l' -> Csum l = Csum l'.
Proof.
  induction 1 as [| a l l' _ IH | a b l | l l' l'' _ IH1 _ IH2].
  - reflexivity.
  - rewrite !Csum_cons, IH. reflexivity.
  - rewrite !Csum_cons, !Cadd_assoc, (Cadd_comm b a). reflexivity.
  - congruence.
Qed.

Section Grouping.

Context {A : Type}.

Lemma filter_split_perm (p q : A -> bool) (l : list A) :
  (forall a, In a l -> p a = true -> q a = false) ->
  Permutation (filter p l ++ filter q l) (filter (fun a => p a || q a) l).
Proof.
  induction l as [| a l IH]; intros Hdis; simpl; [constructor |].
  assert (IH' := IH (fun b Hb => Hdis b (or_intror Hb))).
  destruct (p a) eqn:Ep; simpl.
  - rewrite (Hdis a (or_introl eq_refl) Ep). constructor. exact IH'.
  - destruct (q a); [| exact IH'].
    apply Permutation_sym, Permutation_cons_app, Permutation_sym, IH'.
Qed.

Lemma filter_all (p : A -> bool) (l : list A) :
  (forall a, In a l -> p a = true) -> filter p l = l.
Proof.
  induction l as [| a l IH]; intros H; simpl; [reflexivity |].
  rewrite (H a (or_introl eq_refl)). f_equal. apply IH. intros b Hb.
  apply H. right. exact Hb.
Qed.

(** Grouping a list by the distinct values of a key only permutes it. *)
Lemma group_by_key_perm (key : A -> string) (keys : list string) (l : list A) :
  NoDup keys -> (forall a, In a l -> In (key a) keys) ->
  Permutation
    (flat_map (fun e => filter (fun a => String.eqb (key a) e) l) keys) l.
Proof.
  intros Hnd Hcov.
  assert (Hgen : Permutation
            (flat_map (fun e => filter (fun a => String.eqb (key a) e) l) keys)
            (filter (fun a => existsb (String.eqb (key a)) keys) l)).
  { clear Hcov. induction Hnd as [| e keys Hnotin Hnd IH]; simpl.
    - clear. induction l as [| a l IH]; simpl; [constructor | exact IH].
    - eapply Permutation_trans.
      + apply Permutation_app_head. exact IH.
      + apply filter_split_perm. intros a _ Ea.
        apply String.eqb_eq in Ea. subst e.
        destruct (existsb (String.eqb (key a)) keys) eqn:Ex; [| reflexivity].
        apply existsb_exists in Ex. destruct Ex as [e' [He' Ee']].
        apply String.eqb_eq in Ee'. subst e'. contradiction. }
  rewrite filter_all in Hgen; [exact Hgen |].
  intros a Ha. apply existsb_exists. exists (key a).
  split; [apply Hcov, Ha | apply String.eqb_refl].
Qed.

End Grouping.

Section StructureFactor.

Variable form_file : list (string * list R).

Lemma atom_form_spec (element : string) (y v : R) :
  atom_form form_file element y = Ok v <->
  form_factor_spec form_file element y = Some v.
Proof.
  unfold atom_form, form_factor_spec.
  destruct (get_atom_form form_file element) as [nums |];
    [| split; discriminate].
  cbn [from_option bind].
  destruct nums as [| a0 [| a1 [| a2 [| a3 [| a4 [| a5 [| a6 [| a7 [| a8 t]]]]]]]]];
    cbn [index from_option nth_error bind]; try (split; discriminate).
  rewrite <- !Rsqr_pow2.
  split; intros H; injection H as <-; reflexivity.
Qed.

Lemma element_factors_contribution (ats : list atom) (e : string) (y : R) (p : hkl) :
  element_factors ats e (form_value form_file y e) p =
  map (contribution form_file y p) (filter (fun a : atom => String.eqb (fst a) e) ats).
Proof.
  unfold element_factors. apply map_ext_in. intros a Ha.
  apply filter_In in Ha. destruct Ha as [_ Ea]. apply String.eqb_eq in Ea.
  unfold contribution. rewrite Ea. reflexivity.
Qed.

Lemma s_factors_ok (ats : list atom) (y : R) (p : hkl) (els : list string) :
  forall acc fl,
    s_factors form_file ats els y p acc = Ok fl ->
    (forall e, In e els -> atom_form form_file e y = Ok (form_value form_file y e)) /\
    fl = acc ++ flat_map
                  (fun e => map (contribution form_file y p)
                              (filter (fun a : atom => String.eqb (fst a) e) ats))
                  els.
Proof.
  induction els as [| e els IH]; intros acc fl H; simpl in H.
  - injection H as <-. split; [intros e [] | rewrite app_nil_r; reflexivity].
  - destruct (atom_form form_file e y) as [f |] eqn:Ef; simpl in H;
      [| discriminate].
    destruct (IH _ _ H) as [Hall Hfl].
    assert (Ev : form_value form_file y e = f) by (unfold form_value; rewrite Ef; reflexivity).
    split.
    + intros e' [<- | He']; [rewrite Ev; exact Ef | apply Hall, He'].
    + rewrite Hfl, <- app_assoc. simpl. f_equal. f_equal.
      rewrite <- Ev. apply element_factors_contribution.
Qed.

Lemma s_factors_returns (ats : list atom) (y : R) (p : hkl) (els : list string) :
  (forall e, In e els -> exists f, atom_form form_file e y = Ok f) ->
  forall acc, exists fl, s_factors form_file ats els y p acc = Ok fl.
Proof.
  induction els as [| e els IH]; intros Hall acc; simpl.
  - eexists; reflexivity.
  - destruct (Hall e (or_introl eq_refl)) as [f Ef]. rewrite Ef. simpl.
    apply IH. intros e' He'. apply Hall. right. exact He'.
Qed.

Lemma flat_map_map {X Y Z : Type} (g : Y -> Z) (h : X -> list Y) (l : list X) :
  flat_map (fun x => map g (h x)) l = map g (flat_map h l).
Proof.
  induction l as [| x l IH]; simpl; [reflexivity |].
  rewrite map_app, IH. reflexivity.
Qed.

Lemma structure_factor_spec_sum (ats : list atom) (y : R) (p : hkl) :
  (forall a, In a ats ->
     form_factor_spec form_file (fst a) y = Some (form_value form_file y (fst a))) ->
  structure_factor_spec form_file ats y p =
  Some (Csum (map (contribution form_file y p) ats)).
Proof.
  induction ats as [| a ats IH]; intros H; simpl.
  - reflexivity.
  - rewrite (H a (or_introl eq_refl)).
    rewrite IH by (intros b Hb; apply H; right; exact Hb).
    rewrite Csum_cons. reflexivity.
Qed.

(** The sum of the list built element by element is the sum over the atoms,
    whatever the order of the elements. *)
Lemma s_factors_sum (set_order : list string -> list string)
  (ats : list atom) (y : R) (p : hkl) (fl : list C) :
  set_order_ok set_order ->
  s_factors form_file ats (set_order (map fst ats)) y p [] = Ok fl ->
  structure_factor_spec form_file ats y p = Some (Csum fl).
Proof.
  intros Hso H. destruct (Hso (map fst ats)) as [Hnd Hin].
  destruct (s_factors_ok _ _ _ _ _ _ H) as [Hall Hfl]. simpl in Hfl.
  assert (Hcov : forall a : atom, In a ats -> In (fst a) (set_order (map fst ats))).
  { intros a Ha. apply Hin. apply in_map. exact Ha. }
  rewrite structure_factor_spec_sum.
  - f_equal. rewrite Hfl, flat_map_map. apply Csum_perm.
    apply Permutation_sym, Permutation_map.
    apply (group_by_key_perm (fun a : atom => fst a)); assumption.
  - intros a Ha. apply atom_form_spec. apply Hall, Hcov, Ha.
Qed.

End StructureFactor.

(** ** The pattern *)

Lemma vecmat_lincomb (p : hkl) (k_1 k_2 k_3 : vec3) :
  vecmat p (k_1, k_2, k_3) = lincomb p k_1 k_2 k_3.
Proof.
  destruct p as [[h k] l], k_1 as [[a0 a1] a2], k_2 as [[b0 b1] b2],
    k_3 as [[c0 c1] c2].
  unfold vecmat, lincomb, vadd, vscale. reflexivity.
Qed.

Lemma y_of_spec (m : XRD) (p : hkl) (b1 b2 b3 : vec3) :
  rec_lattice m = (b1, b2, b3) ->
  y_of m p = norm (lincomb p b1 b2 b3) / (4 * PI).
Proof.
  intros E. unfold y_of. rewrite E, vecmat_lincomb. field. apply PI_neq0.
Qed.

Lemma lp_factor_spec (theta : R) :
  lp_factor theta = (1 + (cos (2 * theta))²) / (8 * (sin theta)² * cos theta).
Proof.
  unfold lp_factor. rewrite !Rsqr_pow2, (Rmult_comm theta 2). reflexivity.
Qed.

Lemma angle_step_profile (wl : R) (h k l : Z) (y : R) (fl : list C)
  (acc : xrd_acc) (r : reflection) :
  In r (acc_profile (angle_step wl (h, k, l) y fl acc)) ->
  In r (acc_profile acc) \/
  (-1 <= wl * y <= 1 /\
   r = (h, k, l, 2 * 180 / PI * asin (wl * y),
        Cnorm (Csum fl) ^ 2 * lp_factor (asin (wl * y)))).
Proof.
  unfold angle_step. destruct (in_unit (wl * y)) eqn:Eu.
  - destruct (Reqb (asin (wl * y)) (PI / 2) || Reqb (asin (wl * y)) 0);
      [auto |].
    simpl. intros H. apply in_app_or in H. destruct H as [H | [<- | []]];
      [auto |].
    right. split; [apply in_unit_true, Eu | reflexivity].
  - simpl. auto.
Qed.

Lemma Cnorm_sq (z : C) : Cnorm z ^ 2 = fst z * fst z + snd z * snd z.
Proof.
  unfold Cnorm. apply pow2_sqrt. nra.
Qed.

Lemma table_entry_spec (form_file : list (string * list R)) (element : string) :
  table_entry form_file element = get_atom_form form_file element.
Proof.
  unfold table_entry, get_atom_form.
  induction form_file as [| [sym nums] rest IH]; simpl; [reflexivity |].
  rewrite (String.eqb_sym element sym).
  destruct (String.eqb sym element); [reflexivity | exact IH].
Qed.

(** The sum over the atoms written on real and imaginary parts is the sum
    of the complex contributions. *)
Lemma structure_factor_parts_spec (form_file : list (string * list R)) (y : R)
  (h k l : Z) (ats : list atom) :
  structure_factor_parts form_file y h k l ats =
  structure_factor_spec form_file ats y (h, k, l).
Proof.
  induction ats as [| [element [[px py] pz]] ats IH]; [reflexivity |].
  cbn [structure_factor_parts structure_factor_spec]. rewrite IH.
  unfold atom_term, form_factor_spec. rewrite table_entry_spec. cbn [fst snd].
  destruct (get_atom_form form_file element) as [coeffs |]; [| reflexivity].
  destruct coeffs as [| a1 [| b1 [| a2 [| b2 [| a3 [| b3 [| a4 [| b4 [| c t]]]]]]]]];
    try reflexivity.
  cbn [four_gaussians].
  destruct (structure_factor_spec form_file ats y (h, k, l)) as [[Fre Fim] |];
    reflexivity.
Qed.

Lemma y_of_components (m : XRD) (h k l : Z)
  (b1x b1y b1z b2x b2y b2z b3x b3y b3z : R) :
  rec_lattice m = ((b1x, b1y, b1z), (b2x, b2y, b2z), (b3x, b3y, b3z)) ->
  y_of m (h, k, l) =
  sqrt ((IZR h * b1x + IZR k * b2x + IZR l * b3x)² +
        (IZR h * b1y + IZR k * b2y + IZR l * b3y)² +
        (IZR h * b1z + IZR k * b2z + IZR l * b3z)²) / (4 * PI).
Proof.
  intros E. unfold y_of. rewrite E. unfold norm, vecmat, dot, Rsqr.
  field. apply PI_neq0.
Qed.

Section Pattern.

Variable form_file : list (string * list R).
Variable set_order : list string -> list string.
Hypothesis set_order_spec : set_order_ok set_order.

Lemma xrd_loop_spec (m : XRD) (planes : list hkl) :
  forall acc acc',
    xrd_loop form_file set_order m planes acc = Ok acc' ->
    (forall r, In r (acc_profile acc) -> reflection_spec form_file m r) ->
    forall r, In r (acc_profile acc') -> reflection_spec form_file m r.
Proof.
  induction planes as [| p planes IH]; intros acc acc' H Hacc; simpl in H.
  - injection H as <-. exact Hacc.
  - apply bind_ok_inv in H. destruct H as [fl [Hfl H]].
    apply (IH _ _ H). intros r Hr. destruct p as [[h k] l].
    apply angle_step_profile in Hr. destruct Hr as [Hr | [Hu ->]];
      [apply Hacc, Hr |].
    unfold reflection_spec.
    destruct (rec_lattice m)
      as [[[[b1x b1y] b1z] [[b2x b2y] b2z]] [[b3x b3y] b3z]] eqn:Erec.
    cbv zeta.
    rewrite <- (y_of_components m h k l _ _ _ _ _ _ _ _ _ Erec).
    split; [exact Hu |].
    assert (Hsum := s_factors_sum form_file set_order (atoms m)
                      (y_of m (h, k, l)) (h, k, l) fl set_order_spec Hfl).
    rewrite <- structure_factor_parts_spec in Hsum.
    exists (fst (Csum fl)), (snd (Csum fl)). split; [| split].
    + rewrite Hsum. destruct (Csum fl). reflexivity.
    + rewrite lp_factor_spec, Cnorm_sq. reflexivity.
    + field. apply PI_neq0.
Qed.

(** C1: every reflection record of [get_xrd] carries the intensity
    [|F|^2 * LP] and the two-theta [2 * theta * 180 / pi] of its plane.  When
    [get_xrd] returns, the model it returns holds a reflection sequence, and
    each record [(h, k, l, twotheta, inten)] of it satisfies
    [reflection_spec], which is written on the numbers alone: with
    [q = h*b1 + k*b2 + l*b3], [y = |q| / (4*pi)] and
    [theta = arcsin(wavelength * y)], [inten] is [Re(F)^2 + Im(F)^2] times
    [(1 + cos(2*theta)^2) / (8 * sin(theta)^2 * cos(theta))], where [F] is
    the sum over every atom, at position [(px, py, pz)], of the 4-Gaussian
    form factor of the first table line of its element at [y] times
    [exp(2*pi*i * (px*h + py*k + pz*l))], and [twotheta] is
    [2 * theta * 180 / pi]. *)
Theorem get_xrd_intensity (m m' : XRD) (printed : list R) :
  get_xrd form_file set_order m = Ok (m', printed) ->
  exists profile,
    inten_profile m' = Some profile /\
    forall r, In r profile -> reflection_spec form_file m r.
Proof.
  unfold get_xrd. destruct (rec_lattice m) as [[k_1 k_2] k_3] eqn:Erec.
  intros H. apply bind_ok_inv in H. destruct H as [planes [_ H]].
  apply bind_ok_inv in H. destruct H as [acc [Hloop H]].
  injection H as <- _. simpl.
  exists (acc_profile acc). split; [reflexivity |].
  apply (xrd_loop_spec m planes acc_empty acc Hloop).
  intros r [].
Qed.

End Pattern.

Lemma y_of_origin (m : XRD) : y_of m (0, 0, 0)%Z = 0.
Proof.
  unfold y_of. destruct (rec_lattice m) as [[[[a0 a1] a2] [[b0 b1] b2]] [[c0 c1] c2]].
  unfold vecmat, norm, dot.
  match goal with
  | |- sqrt ?e / 4 / PI = 0 => replace e with 0 by ring
  end.
  rewrite sqrt_0. field. apply PI_neq0.
Qed.

Lemma angle_step_degenerate (wl : R) (p : hkl) (y : R) (fl : list C) (acc : xrd_acc) :
  -1 <= wl * y <= 1 ->
  asin (wl * y) = 0 \/ asin (wl * y) = PI / 2 ->
  angle_step wl p y fl acc = acc.
Proof.
  intros Hu Hth. unfold angle_step. destruct p as [[h k] l].
  rewrite (proj2 (in_unit_true _) Hu).
  destruct Hth as [E | E].
  - rewrite (proj2 (Reqb_true _ 0) E), orb_true_r. reflexivity.
  - rewrite (proj2 (Reqb_true _ (PI / 2)) E). reflexivity.
Qed.

Section PatternRuns.

Variable form_file : list (string * list R).
Variable set_order : list string -> list string.

Lemma atom_form_returns (element : string) (y : R) (nums : list R) :
  get_atom_form form_file element = Some nums -> (9 <= length nums)%nat ->
  exists f, atom_form form_file element y = Ok f.
Proof.
  intros Hg Hlen. unfold atom_form. rewrite Hg. cbn [from_option bind].
  destruct nums as [| a0 [| a1 [| a2 [| a3 [| a4 [| a5 [| a6 [| a7 [| a8 t]]]]]]]]];
    simpl in Hlen; try lia.
  cbn [index from_option nth_error bind]. eexists; reflexivity.
Qed.

Lemma s_factors_covered (m : XRD) (y : R) (p : hkl) :
  set_order_ok set_order -> table_covers form_file (atoms m) ->
  exists fl,
    s_factors form_file (atoms m) (elements_of set_order m) y p [] = Ok fl.
Proof.
  intros Hso Hcov. apply s_factors_returns. intros e He.
  unfold elements_of in He. apply (Hso (map fst (atoms m))) in He.
  apply in_map_iff in He. destruct He as [a [<- Ha]].
  destruct (Hcov a Ha) as [nums [Hg Hlen]].
  apply (atom_form_returns _ y nums Hg Hlen).
Qed.

(** With its form factors found, the loop returns. *)
Lemma xrd_loop_returns (m : XRD) (planes : list hkl) :
  set_order_ok set_order -> table_covers form_file (atoms m) ->
  forall acc, exists acc', xrd_loop form_file set_order m planes acc = Ok acc'.
Proof.
  intros Hso Hcov. induction planes as [| p planes IH]; intros acc; simpl.
  - eexists; reflexivity.
  - destruct (s_factors_covered m (y_of m p) p Hso Hcov) as [fl Hfl].
    rewrite Hfl. simpl. apply IH.
Qed.

Lemma xrd_loop_skip (m : XRD) (p : hkl) (rest : list hkl) (acc : xrd_acc) :
  -1 <= wavelength m * y_of m p <= 1 ->
  asin (wavelength m * y_of m p) = 0 \/ asin (wavelength m * y_of m p) = PI / 2 ->
  xrd_loop form_file set_order m (p :: rest) acc =
  (_ <- s_factors form_file (atoms m) (elements_of set_order m) (y_of m p) p [] ;;
   xrd_loop form_file set_order m rest acc).
Proof.
  intros Hu Hth. simpl.
  destruct (s_factors form_file (atoms m) (elements_of set_order m) (y_of m p) p [])
    as [fl |]; simpl; [| reflexivity].
  rewrite (angle_step_degenerate _ p _ fl acc Hu Hth). reflexivity.
Qed.

Lemma xrd_loop_origin_only (m : XRD) (planes : list hkl) (acc : xrd_acc) :
  set_order_ok set_order -> table_covers form_file (atoms m) ->
  (forall p, In p planes -> p = (0, 0, 0)%Z) ->
  xrd_loop form_file set_order m planes acc = Ok acc.
Proof.
  intros Hso Hcov. induction planes as [| p planes IH]; intros Hall.
  - reflexivity.
  - rewrite (Hall p (or_introl eq_refl)).
    rewrite xrd_loop_skip.
    + destruct (s_factors_covered m (y_of m (0, 0, 0)%Z) (0, 0, 0)%Z Hso Hcov)
        as [fl Hfl].
      rewrite Hfl. simpl. apply IH. intros q Hq. apply Hall. right. exact Hq.
    + rewrite y_of_origin. lra.
    + left. rewrite y_of_origin, Rmult_0_r. apply asin_0.
Qed.

Lemma get_xrd_unfold (m : XRD) (k_1 k_2 k_3 : vec3) (planes : list hkl)
  (acc : xrd_acc) :
  rec_lattice m = (k_1, k_2, k_3) ->
  get_kvec_list (wavelength m) k_1 k_2 k_3 None = Ok planes ->
  xrd_loop form_file set_order m planes acc_empty = Ok acc ->
  get_xrd form_file set_order m =
  Ok (mkXRD (lattice m) (rec_lattice m) (atoms m) (wavelength m)
            (Some (acc_twotheta acc)) (Some (acc_profile acc))
            (Some (acc_intensity acc)),
      acc_printed acc).
Proof.
  intros Erec Hk Hl. unfold get_xrd. rewrite Erec, Hk. simpl.
  rewrite Hl. reflexivity.
Qed.

(** C8: a plane whose diffraction angle is exactly 0 or exactly pi/2 is
    passed over in silence.  For such a plane [p] (with
    [-1 <= wavelength * y <= 1], where the arcsine is taken): the angle step
    leaves the three lists and the printed output as they were, whatever the
    structure factors; the loop on [p :: rest] is the structure-factor loop
    of [p] followed by the loop on [rest] from the same state; and when every
    element has its form factors, the loop on [p :: rest] is the loop on
    [rest]. *)
Theorem xrd_loop_skips_degenerate (m : XRD) (p : hkl) (rest : list hkl)
  (acc : xrd_acc) :
  -1 <= wavelength m * y_of m p <= 1 ->
  asin (wavelength m * y_of m p) = 0 \/ asin (wavelength m * y_of m p) = PI / 2 ->
  (forall fl, angle_step (wavelength m) p (y_of m p) fl acc = acc) /\
  xrd_loop form_file set_order m (p :: rest) acc =
    (_ <- s_factors form_file (atoms m) (elements_of set_order m) (y_of m p) p [] ;;
     xrd_loop form_file set_order m rest acc) /\
  (set_order_ok set_order -> table_covers form_file (atoms m) ->
   xrd_loop form_file set_order m (p :: rest) acc =
   xrd_loop form_file set_order m rest acc).
Proof.
  intros Hu Hth. split; [| split].
  - intros fl. apply angle_step_degenerate; assumption.
  - apply xrd_loop_skip; assumption.
  - intros Hso Hcov. rewrite xrd_loop_skip by assumption.
    destruct (s_factors_covered m (y_of m p) p Hso Hcov) as [fl Hfl].
    rewrite Hfl. reflexivity.
Qed.

End PatternRuns.

(** ** The empty pattern *)

Lemma lincomb_100 (k_1 k_2 k_3 : vec3) : lincomb (1, 0, 0)%Z k_1 k_2 k_3 = k_1.
Proof.
  destruct k_1 as [[a0 a1] a2], k_2 as [[b0 b1] b2], k_3 as [[c0 c1] c2].
  unfold lincomb, vadd, vscale. f_equal; [f_equal |]; ring.
Qed.

Lemma lincomb_010 (k_1 k_2 k_3 : vec3) : lincomb (0, 1, 0)%Z k_1 k_2 k_3 = k_2.
Proof.
  destruct k_1 as [[a0 a1] a2], k_2 as [[b0 b1] b2], k_3 as [[c0 c1] c2].
  unfold lincomb, vadd, vscale. f_equal; [f_equal |]; ring.
Qed.

Lemma lincomb_001 (k_1 k_2 k_3 : vec3) : lincomb (0, 0, 1)%Z k_1 k_2 k_3 = k_3.
Proof.
  destruct k_1 as [[a0 a1] a2], k_2 as [[b0 b1] b2], k_3 as [[c0 c1] c2].
  unfold lincomb, vadd, vscale. f_equal; [f_equal |]; ring.
Qed.

(** When only the origin satisfies the Bragg bound, the wavelength and the
    three reciprocal axes are not zero. *)
Lemma bragg_origin_only_nonzero (wl : R) (k_1 k_2 k_3 : vec3) :
  (forall h k l, (h, k, l) <> (0, 0, 0)%Z ->
     ~ -1 <= wl * norm (lincomb (h, k, l) k_1 k_2 k_3) / (4 * PI) <= 1) ->
  wl <> 0 /\ norm k_1 <> 0 /\ norm k_2 <> 0 /\ norm k_3 <> 0.
Proof.
  intros H.
  assert (Hz : forall x, x = 0 -> -1 <= x / (4 * PI) <= 1).
  { intros x ->. unfold Rdiv. rewrite Rmult_0_l. lra. }
  repeat split; intros E.
  - apply (H 1 0 0)%Z; [congruence |]. apply Hz. rewrite E. ring.
  - apply (H 1 0 0)%Z; [congruence |]. apply Hz.
    rewrite lincomb_100, E. ring.
  - apply (H 0 1 0)%Z; [congruence |]. apply Hz.
    rewrite lincomb_010, E. ring.
  - apply (H 0 0 1)%Z; [congruence |]. apply Hz.
    rewrite lincomb_001, E. ring.
Qed.

Lemma hkl_eq_dec (p q : hkl) : {p = q} + {p <> q}.
Proof.
  destruct p as [[h k] l], q as [[h' k'] l'].
  destruct (Z.eq_dec h h'); [| right; congruence].
  destruct (Z.eq_dec k k'); [| right; congruence].
  destruct (Z.eq_dec l l'); [left | right]; congruence.
Qed.

(** C10: a wavelength so large that only the origin satisfies the Bragg
    bound gives the empty pattern.  For a model whose elements all have
    their form factors, and whose wavelength admits no triple other than
    (0, 0, 0), [get_xrd] returns, prints nothing, and leaves an empty
    reflection sequence with empty two-theta and intensity sequences. *)
Theorem get_xrd_empty_pattern (form_file : list (string * list R))
  (set_order : list string -> list string) (m : XRD) (b1 b2 b3 : vec3) :
  set_order_ok set_order ->
  table_covers form_file (atoms m) ->
  rec_lattice m = (b1, b2, b3) ->
  (forall h k l, (h, k, l) <> (0, 0, 0)%Z ->
     ~ -1 <= wavelength m * norm (lincomb (h, k, l) b1 b2 b3) / (4 * PI) <= 1) ->
  exists m',
    get_xrd form_file set_order m = Ok (m', []) /\
    inten_profile m' = Some [] /\
    twotheta_list m' = Some [] /\
    intensity_list m' = Some [].
Proof.
  intros Hso Hcov Erec Hbragg.
  destruct (bragg_origin_only_nonzero _ _ _ _ Hbragg) as [Hw [H1 [H2 H3]]].
  assert (Hb := resolve_bound_derived (wavelength m) b1 b2 b3 Hw H1 H2 H3).
  set (b := Z.min 5 _) in Hb.
  assert (Hk : get_kvec_list (wavelength m) b1 b2 b3 None =
               Ok (kvec_scan (wavelength m) b1 b2 b3 b)).
  { unfold get_kvec_list. rewrite Hb. reflexivity. }
  assert (Hl : xrd_loop form_file set_order m
                 (kvec_scan (wavelength m) b1 b2 b3 b) acc_empty = Ok acc_empty).
  { apply xrd_loop_origin_only; [exact Hso | exact Hcov |].
    intros [[h k] l] Hp. apply kvec_scan_In in Hp. destruct Hp as [_ Hp].
    rewrite sin_twotheta_spec in Hp.
    destruct (hkl_eq_dec (h, k, l) (0, 0, 0)%Z) as [E | N]; [exact E |].
    exfalso. exact (Hbragg h k l N Hp). }
  rewrite (get_xrd_unfold form_file set_order m b1 b2 b3 _ _ Erec Hk Hl).
  eexists. split; [reflexivity |]. simpl. auto.
Qed.

(** ** Records are emitted *)

Lemma angle_step_keeps (wl : R) (p : hkl) (y : R) (fl : list C) (acc : xrd_acc)
  (r : reflection) :
  In r (acc_profile acc) -> In r (acc_profile (angle_step wl p y fl acc)).
Proof.
  intros Hr. unfold angle_step. destruct p as [[h k] l].
  destruct (in_unit (wl * y)); [| exact Hr].
  destruct (Reqb _ _ || Reqb _ _); [exact Hr |].
  simpl. apply in_or_app. left. exact Hr.
Qed.

Lemma angle_step_emits (wl : R) (h k l : Z) (y : R) (fl : list C) (acc : xrd_acc) :
  -1 <= wl * y <= 1 -> asin (wl * y) <> 0 -> asin (wl * y) <> PI / 2 ->
  exists twotheta inten,
    In (h, k, l, twotheta, inten) (acc_profile (angle_step wl (h, k, l) y fl acc)).
Proof.
  intros Hu H0 H2. unfold angle_step.
  rewrite (proj2 (in_unit_true _) Hu).
  rewrite (proj2 (Reqb_false _ 0) H0), (proj2 (Reqb_false _ (PI / 2)) H2).
  simpl. do 2 eexists. apply in_or_app. right. left. reflexivity.
Qed.

Lemma xrd_loop_emits (form_file : list (string * list R))
  (set_order : list string -> list string) (m : XRD) (planes : list hkl) :
  forall acc acc',
    xrd_loop form_file set_order m planes acc = Ok acc' ->
    (forall r, In r (acc_profile acc) -> In r (acc_profile acc')) /\
    (forall h k l,
        In (h, k, l) planes ->
        -1 <= wavelength m * y_of m (h, k, l) <= 1 ->
        asin (wavelength m * y_of m (h, k, l)) <> 0 ->
        asin (wavelength m * y_of m (h, k, l)) <> PI / 2 ->
        exists twotheta inten, In (h, k, l, twotheta, inten) (acc_profile acc')).
Proof.
  induction planes as [| p planes IH]; intros acc acc' H; simpl in H.
  - injection H as <-. split; [auto | intros h k l []].
  - apply bind_ok_inv in H. destruct H as [fl [Hfl H]].
    destruct (IH _ _ H) as [Hkeep Hemit]. split.
    + intros r Hr. apply Hkeep, angle_step_keeps, Hr.
    + intros h k l [-> | Hin] Hu H0 H2.
      * destruct (angle_step_emits (wavelength m) h k l (y_of m (h, k, l)) fl acc
                    Hu H0 H2) as [tt [inten Hr]].
        exists tt, inten. apply Hkeep, Hr.
      * apply (Hemit h k l Hin Hu H0 H2).
Qed.

(** The derived bound of a positive wavelength lies between 1 and 5. *)
Lemma resolve_bound_positive (wl : R) (k_1 k_2 k_3 : vec3) :
  0 < wl -> norm k_1 <> 0 -> norm k_2 <> 0 -> norm k_3 <> 0 ->
  exists b, resolve_bound wl k_1 k_2 k_3 None = Ok b /\ (1 <= b <= 5)%Z.
Proof.
  intros Hw H1 H2 H3.
  rewrite resolve_bound_derived by (try assumption; lra).
  eexists. split; [reflexivity |].
  assert (Hc : forall k, norm k <> 0 -> (1 <= ceil (4 * PI / (wl * norm k)))%Z).
  { intros k Hk.
    assert (Hn : 0 < norm k).
    { assert (0 <= norm k) by (unfold norm; apply sqrt_pos). lra. }
    assert (Hx : 0 < 4 * PI / (wl * norm k)).
    { apply Rdiv_lt_0_compat; [assert (Hpi := PI_RGT_0); lra |].
      apply Rmult_lt_0_compat; assumption. }
    destruct (ceil_bounds (4 * PI / (wl * norm k))) as [_ Hhi].
    assert (0 < IZR (ceil (4 * PI / (wl * norm k)))) by lra.
    apply lt_IZR in H. lia. }
  specialize (Hc k_1 H1). lia.
Qed.

(** ** The cubic cell of the examples *)

Lemma nodup_order_ok : set_order_ok nodup_order.
Proof.
  intros l. split; [apply NoDup_nodup | intros e; apply nodup_In].
Qed.

Lemma si_table_covers (wl : R) : table_covers si_form_file (atoms (si_model wl)).
Proof.
  intros a [<- | []]. eexists. split; [reflexivity | simpl; lia].
Qed.

Lemma si_model_constructed (wl : R) (s : string) :
  XRD_init (fun _ => Some wl) (cubic (1 / 2)) [("Si"%string, (0, 0, 0))] s =
  Ok (si_model wl).
Proof.
  unfold XRD_init, cubic, inv.
  destruct (Req_dec_T _ 0) as [E | _]; [unfold det in E; lra |].
  cbn [bind transpose mscale_pi2]. unfold si_model, cubic, det.
  assert (Hpi := PI_RGT_0).
  do 2 f_equal.
  repeat match goal with
         | |- (_, _) = (_, _) => f_equal
         end; field.
Qed.

Lemma norm_cubic (a : R) (h k l : Z) :
  0 <= a ->
  norm (lincomb (h, k, l) (a, 0, 0) (0, a, 0) (0, 0, a)) =
  a * sqrt (IZR (h * h + k * k + l * l)).
Proof.
  intros Ha. unfold norm, lincomb, vadd, vscale, dot.
  rewrite <- (sqrt_square a) at 7 by exact Ha.
  rewrite <- sqrt_mult_alt by nra.
  f_equal. rewrite !plus_IZR, !mult_IZR. ring.
Qed.

Lemma si_rec_lattice (wl : R) :
  rec_lattice (si_model wl) = ((4 * PI, 0, 0), (0, 4 * PI, 0), (0, 0, 4 * PI)).
Proof. reflexivity. Qed.

Lemma y_of_si (wl : R) (h k l : Z) :
  y_of (si_model wl) (h, k, l) = sqrt (IZR (h * h + k * k + l * l)).
Proof.
  assert (Hpi := PI_RGT_0).
  rewrite (y_of_spec _ _ _ _ _ (si_rec_lattice wl)), norm_cubic by lra.
  field. lra.
Qed.

Lemma sqrt_sum_squares_ge_1 (h k l : Z) :
  (h, k, l) <> (0, 0, 0)%Z -> 1 <= sqrt (IZR (h * h + k * k + l * l)).
Proof.
  intros N. rewrite <- sqrt_1 at 1. apply sqrt_le_1_alt.
  apply IZR_le.
  assert (h <> 0 \/ k <> 0 \/ l <> 0)%Z.
  { destruct (Z.eq_dec h 0) as [-> |]; [| auto].
    destruct (Z.eq_dec k 0) as [-> |]; [| auto].
    destruct (Z.eq_dec l 0) as [-> |]; [| auto].
    contradiction N. reflexivity. }
  nia.
Qed.

(** The pattern of a model from [get_kvec_list] and the loop, when the
    wavelength is positive and the form factors are found. *)
Lemma get_xrd_returns (form_file : list (string * list R))
  (set_order : list string -> list string) (m : XRD) (k_1 k_2 k_3 : vec3) :
  set_order_ok set_order -> table_covers form_file (atoms m) ->
  rec_lattice m = (k_1, k_2, k_3) -> 0 < wavelength m ->
  norm k_1 <> 0 -> norm k_2 <> 0 -> norm k_3 <> 0 ->
  exists b acc,
    (1 <= b <= 5)%Z /\
    xrd_loop form_file set_order m (kvec_scan (wavelength m) k_1 k_2 k_3 b)
      acc_empty = Ok acc /\
    get_xrd form_file set_order m =
    Ok (mkXRD (lattice m) (rec_lattice m) (atoms m) (wavelength m)
              (Some (acc_twotheta acc)) (Some (acc_profile acc))
              (Some (acc_intensity acc)),
        acc_printed acc).
Proof.
  intros Hso Hcov Erec Hw H1 H2 H3.
  destruct (resolve_bound_positive _ _ _ _ Hw H1 H2 H3) as [b [Hb Hrange]].
  destruct (xrd_loop_returns form_file set_order m
              (kvec_scan (wavelength m) k_1 k_2 k_3 b) Hso Hcov acc_empty)
    as [acc Hacc].
  exists b, acc. split; [exact Hrange |]. split; [exact Hacc |].
  apply (get_xrd_unfold form_file set_order m k_1 k_2 k_3
           (kvec_scan (wavelength m) k_1 k_2 k_3 b) acc Erec); [| exact Hacc].
  unfold get_kvec_list. rewrite Hb. reflexivity.
Qed.

Lemma asin_half_not_degenerate : asin (1 / 2) <> 0 /\ asin (1 / 2) <> PI / 2.
Proof.
  assert (Hs : sin (asin (1 / 2)) = 1 / 2) by (apply sin_asin; lra).
  split; intros E; rewrite E in Hs.
  - rewrite sin_0 in Hs. lra.
  - rewrite sin_PI2 in Hs. lra.
Qed.

Lemma sio_table_covers : table_covers sio_form_file (atoms sio_model).
Proof.
  intros a [<- | [<- | [<- | [<- | []]]]];
    eexists; (split; [reflexivity | simpl; lia]).
Qed.

Lemma get_xrd_intensity_witness :
  exists m' printed profile,
    get_xrd sio_form_file nodup_order sio_model = Ok (m', printed) /\
    inten_profile m' = Some profile /\
    (exists twotheta inten,
        In (1%Z, 0%Z, 0%Z, twotheta, inten) profile /\
        reflection_spec sio_form_file sio_model
          (1%Z, 0%Z, 0%Z, twotheta, inten)) /\
    (forall r, In r profile -> reflection_spec sio_form_file sio_model r).
Proof.
  assert (Hpi := PI_RGT_0).
  destruct (get_xrd_returns sio_form_file nodup_order sio_model
              (4 * PI, 0, 0) (0, 4 * PI, 0) (0, 0, 4 * PI)
              nodup_order_ok sio_table_covers eq_refl)
    as [b [acc [Hb [Hloop Hget]]]].
  - simpl. lra.
  - rewrite norm_axis_x; lra.
  - rewrite norm_axis_y; lra.
  - rewrite norm_axis_z; lra.
  - destruct (get_xrd_intensity sio_form_file nodup_order nodup_order_ok
                sio_model _ _ Hget) as [profile [Hprof Hspec]].
    do 3 eexists. split; [exact Hget |]. split; [exact Hprof |].
    split; [| exact Hspec].
    simpl in Hprof. injection Hprof as <-.
    assert (Hy : wavelength sio_model * y_of sio_model (1, 0, 0)%Z = 1 / 2).
    { rewrite (y_of_spec sio_model (1, 0, 0)%Z _ _ _ eq_refl), norm_cubic by lra.
      simpl. rewrite sqrt_1. field. lra. }
    destruct (xrd_loop_emits _ _ _ _ _ _ Hloop) as [_ Hemit].
    destruct (Hemit 1%Z 0%Z 0%Z) as [tt [inten Hin]].
    + apply kvec_scan_In. split; [lia |].
      rewrite sin_twotheta_spec. simpl wavelength.
      rewrite norm_cubic by lra. simpl. rewrite sqrt_1.
      replace (1 / 2 * (4 * PI * 1) / (4 * PI)) with (1 / 2) by (field; lra).
      lra.
    + rewrite Hy. lra.
    + rewrite Hy. apply asin_half_not_degenerate.
    + rewrite Hy. apply asin_half_not_degenerate.
    + exists tt, inten. split; [exact Hin | apply Hspec, Hin].
Defined.

Lemma xrd_loop_skips_degenerate_witness :
  xrd_loop si_form_file nodup_order (si_model 1) [(1, 0, 0)%Z] acc_empty =
  Ok acc_empty.
Proof.
  assert (Hy : wavelength (si_model 1) * y_of (si_model 1) (1, 0, 0)%Z = 1).
  { rewrite y_of_si. simpl. rewrite sqrt_1. lra. }
  destruct (xrd_loop_skips_degenerate si_form_file nodup_order (si_model 1)
              (1, 0, 0)%Z [] acc_empty) as [_ [_ Hskip]].
  - rewrite Hy. lra.
  - right. rewrite Hy. apply asin_1.
  - exact (Hskip nodup_order_ok (si_table_covers 1)).
Defined.

Lemma get_xrd_empty_pattern_witness :
  exists m',
    get_xrd si_form_file nodup_order (si_model 100) = Ok (m', []) /\
    inten_profile m' = Some [] /\
    twotheta_list m' = Some [] /\
    intensity_list m' = Some [].
Proof.
  apply (get_xrd_empty_pattern si_form_file nodup_order (si_model 100)
           (4 * PI, 0, 0) (0, 4 * PI, 0) (0, 0, 4 * PI)
           nodup_order_ok (si_table_covers 100) eq_refl).
  intros h k l N [_ Hle].
  assert (Hpi := PI_RGT_0).
  rewrite norm_cubic in Hle by lra.
  assert (Hs := sqrt_sum_squares_ge_1 h k l N).
  replace (wavelength (si_model 100) *
           (4 * PI * sqrt (IZR (h * h + k * k + l * l))) / (4 * PI))
    with (100 * sqrt (IZR (h * h + k * k + l * l))) in Hle
    by (simpl; field; lra).
  lra.
Defined.

(** ** The d-spacing report *)











(** ** The sort of the examples is a sort *)

Section SortKey.

Context {A : Type}.
Variable key : A -> R.





End SortKey.



Lemma two_peaks_merge :
  sum_intensity [30; 45] [2; 3] default_tolerance = Ok ([30; 45], [2; 3]).
Proof.
  unfold sum_intensity, sum_intensity_gen.
  cbn [merge_loop where_first app].
  assert (E : close R Rminus Rabs Rleb default_tolerance 30 45 = false).
  { apply close_R_false. unfold default_tolerance.
    replace (30 - 45) with (- 15) by ring.
    rewrite Rabs_left by lra. lra. }
  rewrite E. reflexivity.
Qed.

Lemma sum_intensity_scan_witness :
  length [30; 45] = length [2; 3] /\
  exists ny',
    sum_intensity ([30; 45] ++ [30]) ([2; 3] ++ [5]) default_tolerance =
    Ok ([30; 45], ny') /\
    nth_error ny' 0 = Some (2 + 5) /\
    nth_error ny' 1 = Some 3.
Proof.
  split; [reflexivity |].
  destruct (sum_intensity_scan [30; 45] [2; 3] 30 5 eq_refl)
    as [_ [nx [ny [Hm [_ [Hclose _]]]]]].
  rewrite two_peaks_merge in Hm. injection Hm as <- <-.
  destruct (Hclose 0%nat 30 eq_refl) as [ny' [Hrun [_ [Hsame Hother]]]].
  - replace (30 - 30) with 0 by ring. rewrite Rabs_R0. lra.
  - intros i r' Hi. lia.
  - exists ny'. split; [exact Hrun |]. split.
    + apply Hsame. reflexivity.
    + rewrite (Hother 1%nat) by lia. reflexivity.
Defined.



(** ** The three sequences are parallel *)

Lemma angle_step_parallel (wl : R) (p : hkl) (y : R) (fl : list C) (acc : xrd_acc) :
  parallel acc -> parallel (angle_step wl p y fl acc).
Proof.
  intros [Ht Hi]. unfold angle_step. destruct p as [[h k] l].
  destruct (in_unit (wl * y)); [| split; assumption].
  destruct (Reqb _ _ || Reqb _ _); [split; assumption |].
  unfold parallel. cbn [acc_twotheta acc_intensity acc_profile].
  rewrite !map_app, Ht, Hi. split; reflexivity.
Qed.

Lemma xrd_loop_parallel (form_file : list (string * list R))
  (set_order : list string -> list string) (m : XRD) (planes : list hkl) :
  forall acc acc',
    xrd_loop form_file set_order m planes acc = Ok acc' ->
    parallel acc -> parallel acc'.
Proof.
  induction planes as [| p planes IH]; intros acc acc' H Hacc; simpl in H.
  - injection H as <-. exact Hacc.
  - apply bind_ok_inv in H. destruct H as [fl [_ H]].
    apply (IH _ _ H). apply angle_step_parallel, Hacc.
Qed.

(** ** A missing form-factor entry

    The form factors are looked up for every plane before its angle is
    examined, so an element without an entry stops [get_xrd] at the first
    plane, whatever the wavelength. *)

Lemma origin_in_scan (wl : R) (k_1 k_2 k_3 : vec3) (b : Z) :
  (0 <= b)%Z -> In (0, 0, 0)%Z (kvec_scan wl k_1 k_2 k_3 b).
Proof.
  intros Hb. apply kvec_scan_In. split; [lia |].
  unfold sin_twotheta.
  destruct k_1 as [[a0 a1] a2], k_2 as [[b0 b1] b2], k_3 as [[c0 c1] c2].
  unfold lincomb, vadd, vscale, norm, dot.
  match goal with
  | |- _ <= wl * (sqrt ?e / 4 / PI) <= _ => replace e with 0 by ring
  end.
  rewrite sqrt_0. unfold Rdiv. rewrite !Rmult_0_l, Rmult_0_r. lra.
Qed.

Lemma get_xrd_missing_element :
  get_xrd si_form_file nodup_order
    (mkXRD (cubic (1 / 2)) (cubic (4 * PI)) [("Xx"%string, (0, 0, 0))] 100
           None None None) =
  Raise TypeError.
Proof.
  assert (Hpi := PI_RGT_0).
  unfold get_xrd. cbn [rec_lattice wavelength cubic].
  destruct (resolve_bound_positive 100 (4 * PI, 0, 0) (0, 4 * PI, 0) (0, 0, 4 * PI))
    as [b [Hb Hrange]];
    [lra | rewrite norm_axis_x; lra | rewrite norm_axis_y; lra
     | rewrite norm_axis_z; lra |].
  unfold get_kvec_list. rewrite Hb. cbn [bind].
  assert (Hin := origin_in_scan 100 (4 * PI, 0, 0) (0, 4 * PI, 0) (0, 0, 4 * PI) b
                   ltac:(lia)).
  destruct (kvec_scan 100 (4 * PI, 0, 0) (0, 4 * PI, 0) (0, 0, 4 * PI) b)
    as [| p rest]; [destruct Hin |].
  reflexivity.
Qed.

(** ** Small runs *)

Example xrange_example : xrange (-1) 2 = [-1; 0; 1]%Z.
Proof. reflexivity. Qed.

Example product3_example :
  product3 [0; 1]%Z =
  [(0, 0, 0); (0, 0, 1); (0, 1, 0); (0, 1, 1);
   (1, 0, 0); (1, 0, 1); (1, 1, 0); (1, 1, 1)]%Z.
Proof. reflexivity. Qed.

(** The merge on integers, tolerance 1: 30 and 31 share a peak, 45 starts a
    new one, and the later 30 joins the first. *)
Example merge_example :
  sum_intensity_gen Z Z.sub Z.abs Z.leb Z.add [30; 45; 31; 46; 30]%Z
    [1; 2; 3; 4; 5]%Z 1%Z =
  Ok ([30; 45]%Z, [9; 6]%Z).
Proof. reflexivity. Qed.

Example merge_short_intensities :
  sum_intensity_gen Z Z.sub Z.abs Z.leb Z.add [30; 45]%Z [1]%Z 1%Z =
  Raise IndexError.
Proof. reflexivity. Qed.

(** The structure factor of the specification on the four atoms of
    [sio_model], plane (1, 0, 0): two elements, four phases. *)
Example structure_factor_parts_example (y : R) :
  let fSi := 6.2915 * exp (Ropp 2.4386 * y²) + 3.0353 * exp (Ropp 32.3337 * y²) +
             1.9891 * exp (Ropp 0.6785 * y²) + 1.541 * exp (Ropp 81.6937 * y²) +
             1.1407 in
  let fO := 3.0485 * exp (Ropp 13.2771 * y²) + 2.2868 * exp (Ropp 5.7011 * y²) +
            1.5463 * exp (Ropp 0.3239 * y²) + 0.867 * exp (Ropp 32.9089 * y²) +
            0.2508 in
  structure_factor_parts sio_form_file y 1 0 0 (atoms sio_model) =
  Some (fSi * cos (2 * PI * (0 * 1 + 0 * 0 + 0 * 0)) +
        (fO * cos (2 * PI * (1 / 2 * 1 + 1 / 2 * 0 + 0 * 0)) +
         (fSi * cos (2 * PI * (1 / 4 * 1 + 1 / 4 * 0 + 1 / 4 * 0)) +
          (fO * cos (2 * PI * (1 / 4 * 1 + 0 * 0 + 1 / 2 * 0)) + 0))),
        fSi * sin (2 * PI * (0 * 1 + 0 * 0 + 0 * 0)) +
        (fO * sin (2 * PI * (1 / 2 * 1 + 1 / 2 * 0 + 0 * 0)) +
         (fSi * sin (2 * PI * (1 / 4 * 1 + 1 / 4 * 0 + 1 / 4 * 0)) +
          (fO * sin (2 * PI * (1 / 4 * 1 + 0 * 0 + 1 / 2 * 0)) + 0)))).
Proof. reflexivity. Qed.

Example get_wavelength_CuKa1 : get_wavelength "CuKa1" = Ok 1.5405981.
Proof. reflexivity. Qed.

Example get_wavelength_MoKa : get_wavelength "MoKa" = Raise KeyError.
Proof. reflexivity. Qed.

Example resolve_bound_example :
  resolve_bound 1 (1, 0, 0) (0, 1, 0) (0, 0, 1) (Some 3%Z) = Ok 3%Z.
Proof. reflexivity. Qed.

(** * Further properties *)

(** ** The merge: what it keeps *)

Section MergeInvariants.

Variable tol : R.

Lemma total_app (l1 l2 : list R) : total (l1 ++ l2) = total l1 + total l2.
Proof.
  unfold total. induction l1 as [| a l1 IH]; simpl; [lra |].
  rewrite IH. lra.
Qed.

Lemma total_add_at (j : nat) (y : R) (l : list R) :
  (j < length l)%nat -> total (add_at R Rplus j y l) = total l + y.
Proof.
  revert j. induction l as [| v l IH]; intros [| j] Hj; simpl in *; try lia.
  - unfold total. simpl. lra.
  - unfold total in *. simpl. rewrite IH by lia. lra.
Qed.

Lemma merge_loop_total_intensity (xs : list R) : forall ys nx ny nx' ny',
  merge_loop R Rminus Rabs Rleb Rplus tol xs ys nx ny = Ok (nx', ny') ->
  length xs = length ys -> length nx = length ny ->
  total ny' = total ny + total ys.
Proof.
  induction xs as [| x xs IH]; intros ys nx ny nx' ny' H Hlen Hacc.
  - destruct ys; [| discriminate Hlen]. simpl in H. injection H as <- <-.
    unfold total. simpl. lra.
  - destruct ys as [| y ys]; [discriminate Hlen |].
    simpl in Hlen. injection Hlen as Hlen. simpl in H.
    destruct (where_first R Rminus Rabs Rleb tol nx x) as [j |] eqn:E.
    + apply where_first_lt in E.
      rewrite (IH _ _ _ _ _ H Hlen) by (rewrite add_at_length; exact Hacc).
      rewrite total_add_at by lia. unfold total. simpl. lra.
    + rewrite (IH _ _ _ _ _ H Hlen) by (rewrite !length_app; simpl; lia).
      rewrite total_app. unfold total. simpl. lra.
Qed.

(** The peaks of the output extend the peaks of the state by entries of the
    input, and every entry of the input is within the tolerance of a peak. *)
Lemma merge_loop_peaks (xs : list R) : forall ys nx ny nx' ny',
  0 <= tol ->
  merge_loop R Rminus Rabs Rleb Rplus tol xs ys nx ny = Ok (nx', ny') ->
  (exists added, nx' = nx ++ added /\ incl added xs) /\
  (forall x, In x xs -> exists r, In r nx' /\ Rabs (r - x) <= tol).
Proof.
  intros ys nx ny nx' ny' Htol. revert ys nx ny nx' ny'.
  induction xs as [| x xs IH]; intros ys nx ny nx' ny' H.
  - simpl in H. injection H as <- <-. split.
    + exists []. rewrite app_nil_r. split; [reflexivity | intros a []].
    + intros x [].
  - destruct ys as [| y ys]; [discriminate H |]. simpl in H.
    destruct (where_first R Rminus Rabs Rleb tol nx x) as [j |] eqn:E.
    + destruct (IH _ _ _ _ _ H) as [[added [Hnx Hincl]] Hcov]. split.
      * exists added. split; [exact Hnx |].
        intros a Ha. right. apply Hincl, Ha.
      * intros x' [<- | Hx']; [| apply Hcov, Hx'].
        apply where_first_some in E. destruct E as [[r [Hr Hc]] _].
        exists r. split.
        -- rewrite Hnx. apply in_or_app. left.
           apply (nth_error_In _ _ Hr).
        -- apply close_R, Hc.
    + destruct (IH _ _ _ _ _ H) as [[added [Hnx Hincl]] Hcov]. split.
      * exists (x :: added). split.
        -- rewrite Hnx, <- app_assoc. reflexivity.
        -- intros a [<- | Ha]; [left; reflexivity | right; apply Hincl, Ha].
      * intros x' [<- | Hx']; [| apply Hcov, Hx'].
        exists x. split.
        -- rewrite Hnx. apply in_or_app. left. apply in_or_app. right.
           left. reflexivity.
        -- replace (x - x) with 0 by ring. rewrite Rabs_R0. exact Htol.
Qed.

(** Separation, read index by index. *)
Lemma separated_pairwise (l : list R) : forall reps,
  separated R Rminus Rabs Rleb tol reps l ->
  forall i j a b, (i < j)%nat ->
    nth_error (reps ++ l) i = Some a -> nth_error l (j - length reps) = Some b ->
    (length reps <= j)%nat ->
    ~ Rabs (a - b) <= tol.
Proof.
  induction l as [| x l IH]; intros reps Hs i j a b Hij Ha Hb Hj.
  - destruct (j - length reps)%nat; discriminate Hb.
  - destruct Hs as [Hw Hs].
    destruct (Nat.eq_dec j (length reps)) as [-> | Hne].
    + rewrite Nat.sub_diag in Hb. simpl in Hb. injection Hb as <-.
      apply close_R_false.
      apply (proj1 (where_first_none R Rminus Rabs Rleb tol reps x) Hw).
      rewrite nth_error_app1 in Ha by lia. apply (nth_error_In _ _ Ha).
    + apply (IH (reps ++ [x]) Hs i j a b Hij).
      * rewrite <- app_assoc. exact Ha.
      * rewrite length_app. simpl.
        replace (j - length reps)%nat with (S (j - (length reps + 1)))%nat in Hb
          by lia.
        exact Hb.
      * rewrite length_app. simpl. lia.
Qed.

End MergeInvariants.

(** X1: the merge conserves the total intensity.  For parallel lists, the
    intensities of the merged peaks add up to the sum of the intensities
    given. *)
Theorem sum_intensity_conserves_total (xs ys nx ny : list R) (tol : R) :
  length xs = length ys ->
  sum_intensity xs ys tol = Ok (nx, ny) ->
  total ny = total ys.
Proof.
  intros Hlen H.
  rewrite (merge_loop_total_intensity tol xs ys [] [] nx ny H Hlen eq_refl).
  unfold total. simpl. lra.
Qed.

(** X2: merged peaks are pairwise further apart than the tolerance: no two
    peaks of the output are within the tolerance of each other, whatever the
    input. *)
Theorem sum_intensity_peaks_apart (xs ys nx ny : list R) (tol : R)
  (i j : nat) (a b : R) :
  sum_intensity xs ys tol = Ok (nx, ny) ->
  (i < j)%nat -> nth_error nx i = Some a -> nth_error nx j = Some b ->
  ~ Rabs (a - b) <= tol.
Proof.
  intros H Hij Ha Hb.
  destruct (merge_loop_inv R Rminus Rabs Rleb Rplus tol xs ys [] [] nx ny H
              eq_refl I) as [_ Hsep].
  apply (separated_pairwise tol nx [] Hsep i j a b Hij).
  - exact Ha.
  - simpl. rewrite Nat.sub_0_r. exact Hb.
  - simpl. lia.
Qed.

(** X3: the peaks are two-thetas of the input, and none of the input is
    lost: for a tolerance that is not negative, every merged peak is one of
    the given two-thetas, and every given two-theta is within the tolerance
    of some merged peak. *)
Theorem sum_intensity_peaks_cover (xs ys nx ny : list R) (tol : R) :
  0 <= tol ->
  sum_intensity xs ys tol = Ok (nx, ny) ->
  (forall r, In r nx -> In r xs) /\
  (forall x, In x xs -> exists r, In r nx /\ Rabs (r - x) <= tol).
Proof.
  intros Htol H.
  destruct (merge_loop_peaks tol xs ys [] [] nx ny Htol H)
    as [[added [Hnx Hincl]] Hcov].
  split; [| exact Hcov].
  intros r Hr. rewrite Hnx in Hr. apply Hincl, Hr.
Qed.

Lemma three_entries_merge :
  sum_intensity [30; 45; 30] [2; 3; 5] default_tolerance =
  Ok ([30; 45], [2 + 5; 3]).
Proof.
  unfold sum_intensity, sum_intensity_gen.
  assert (E1 : close R Rminus Rabs Rleb default_tolerance 30 45 = false).
  { apply close_R_false. unfold default_tolerance.
    replace (30 - 45) with (- 15) by ring.
    rewrite Rabs_left by lra. lra. }
  assert (E2 : close R Rminus Rabs Rleb default_tolerance 30 30 = true).
  { apply close_R. unfold default_tolerance.
    replace (30 - 30) with 0 by ring. rewrite Rabs_R0. lra. }
  cbn [merge_loop where_first app]. rewrite E1.
  cbn [option_map merge_loop where_first app]. rewrite E2.
  reflexivity.
Qed.

Lemma sum_intensity_conserves_total_witness :
  total [2 + 5; 3] = total [2; 3; 5].
Proof.
  apply (sum_intensity_conserves_total [30; 45; 30] [2; 3; 5] [30; 45]
           [2 + 5; 3] default_tolerance eq_refl three_entries_merge).
Defined.

Lemma sum_intensity_peaks_apart_witness :
  ~ Rabs (30 - 45) <= default_tolerance.
Proof.
  apply (sum_intensity_peaks_apart [30; 45; 30] [2; 3; 5] [30; 45] [2 + 5; 3]
           default_tolerance 0 1 30 45 three_entries_merge);
    [lia | reflexivity | reflexivity].
Defined.

Lemma sum_intensity_peaks_cover_witness :
  (forall r, In r [30; 45] -> In r [30; 45; 30]) /\
  (forall x, In x [30; 45; 30] ->
     exists r, In r [30; 45] /\ Rabs (r - x) <= default_tolerance).
Proof.
  apply (sum_intensity_peaks_cover [30; 45; 30] [2; 3; 5] [30; 45] [2 + 5; 3]
           default_tolerance); [unfold default_tolerance; lra |].
  exact three_entries_merge.
Defined.

Lemma merge_loop_short (tol : R) (xs : list R) : forall ys nx ny,
  (length ys < length xs)%nat ->
  merge_loop R Rminus Rabs Rleb Rplus tol xs ys nx ny = Raise IndexError.
Proof.
  induction xs as [| x xs IH]; intros ys nx ny Hlen; simpl in Hlen; [lia |].
  destruct ys as [| y ys]; [reflexivity |]. simpl in Hlen. simpl.
  destruct (where_first R Rminus Rabs Rleb tol nx x); apply IH; lia.
Qed.

(** X4: an intensity list shorter than the two-theta list makes the merge
    raise [IndexError], whatever the tolerance and the values. *)
Theorem sum_intensity_short_intensities (xs ys : list R) (tol : R) :
  (length ys < length xs)%nat ->
  sum_intensity xs ys tol = Raise IndexError.
Proof.
  intros Hlen. apply merge_loop_short. exact Hlen.
Qed.

Lemma sum_intensity_short_intensities_witness :
  sum_intensity [30; 45] [2] default_tolerance = Raise IndexError.
Proof.
  apply (sum_intensity_short_intensities [30; 45] [2] default_tolerance).
  simpl. lia.
Defined.

(** ** Normalisation again *)

Lemma normalize_by_max (y_list : list R) (m v : R) :
  In m y_list -> (forall y, In y y_list -> y <= m) ->
  normalize y_list v = Ok (map (fun y => y / m * v) y_list).
Proof.
  intros Hin Hmax.
  assert (Hne : y_list <> []) by (intros ->; destruct Hin).
  destruct (py_max_returns y_list Hne) as [m' Hm'].
  destruct (py_max_spec y_list m' Hm') as [Hin' Hmax'].
  assert (m' = m) as -> by (apply Rle_antisym; auto).
  unfold normalize. rewrite Hm'. reflexivity.
Qed.

(** X5: normalising twice is normalising once.  For intensities with a
    positive maximum, the normalised list is returned unchanged by a second
    normalisation. *)
Theorem normalize_idempotent (y_list : list R) (m : R) :
  In m y_list -> (forall y, In y y_list -> y <= m) -> 0 < m ->
  exists out,
    normalize y_list 100 = Ok out /\ normalize out 100 = Ok out.
Proof.
  intros Hin Hmax Hpos.
  exists (map (fun y => y / m * 100) y_list).
  split; [apply normalize_by_max; assumption |].
  rewrite (normalize_by_max _ 100 100).
  - f_equal. rewrite <- (map_id (map _ y_list)) at 2.
    apply map_ext. intros v. field.
  - apply in_map_iff. exists m. split; [field; lra | exact Hin].
  - intros v Hv. apply in_map_iff in Hv. destruct Hv as [y [<- Hy]].
    specialize (Hmax y Hy).
    assert (y / m <= 1).
    { apply (Rmult_le_reg_r m); [exact Hpos |].
      unfold Rdiv. rewrite Rmult_assoc, Rinv_l by lra. lra. }
    lra.
Qed.

Lemma normalize_idempotent_witness :
  exists out,
    normalize [50; 200; 20] 100 = Ok out /\ normalize out 100 = Ok out.
Proof.
  apply (normalize_idempotent [50; 200; 20] 200).
  - simpl. auto.
  - intros y [<- | [<- | [<- | []]]]; lra.
  - lra.
Defined.

(** X6: the normalised pattern does not depend on the scale of the
    intensities.  Multiplying every intensity by the same positive factor
    leaves the result of [normalize] unchanged, when the maximum is not 0. *)
Theorem normalize_scale_invariant (y_list : list R) (m c : R) :
  In m y_list -> (forall y, In y y_list -> y <= m) -> m <> 0 -> 0 < c ->
  normalize (map (Rmult c) y_list) 100 = normalize y_list 100.
Proof.
  intros Hin Hmax Hm Hc.
  rewrite (normalize_by_max y_list m 100 Hin Hmax).
  rewrite (normalize_by_max (map (Rmult c) y_list) (c * m) 100).
  - f_equal. rewrite map_map. apply map_ext. intros y. field. split; lra.
  - apply in_map. exact Hin.
  - intros v Hv. apply in_map_iff in Hv. destruct Hv as [y [<- Hy]].
    apply Rmult_le_compat_l; [lra | apply Hmax, Hy].
Qed.

Lemma normalize_scale_invariant_witness :
  normalize (map (Rmult 3) [50; 200; 20]) 100 = normalize [50; 200; 20] 100.
Proof.
  apply (normalize_scale_invariant [50; 200; 20] 200 3).
  - simpl. auto.
  - intros y [<- | [<- | [<- | []]]]; lra.
  - lra.
  - lra.
Defined.

(** ** The constructor again *)

(** X7: the reciprocal lattice is dual to the lattice.  In a constructed
    model, the rows [a1 a2 a3] of the lattice and the rows [b1 b2 b3] of the
    reciprocal lattice satisfy [dot ai bi = 2*pi] and [dot ai bj = 0] for
    [i <> j]. *)
Theorem XRD_init_reciprocal (py_float : string -> option R) (lat : mat3)
  (ats : list atom) (wl : string) (m : XRD) (a1 a2 a3 b1 b2 b3 : vec3) :
  XRD_init py_float lat ats wl = Ok m ->
  lattice m = (a1, a2, a3) -> rec_lattice m = (b1, b2, b3) ->
  (dot a1 b1 = 2 * PI /\ dot a1 b2 = 0 /\ dot a1 b3 = 0) /\
  (dot a2 b1 = 0 /\ dot a2 b2 = 2 * PI /\ dot a2 b3 = 0) /\
  (dot a3 b1 = 0 /\ dot a3 b2 = 0 /\ dot a3 b3 = 2 * PI).
Proof.
  intros H Hl Hr. unfold XRD_init in H.
  apply bind_ok_inv in H. destruct H as [i [Hi H]].
  apply bind_ok_inv in H. destruct H as [w [_ H]].
  injection H as <-. cbn [lattice rec_lattice] in Hl, Hr. subst lat.
  destruct a1 as [[a b] c], a2 as [[d e] f], a3 as [[g h] k].
  unfold inv in Hi.
  match type of Hi with
  | (if ?c then _ else _) = _ => destruct c as [E | N]; [discriminate Hi |]
  end.
  injection Hi as <-. cbn [transpose mscale_pi2] in Hr.
  injection Hr as <- <- <-.
  unfold det in N. unfold dot, det.
  repeat split; field; exact N.
Qed.

Lemma XRD_init_reciprocal_witness :
  dot (1 / 2, 0, 0) (4 * PI, 0, 0) = 2 * PI /\
  dot (1 / 2, 0, 0) (0, 4 * PI, 0) = 0.
Proof.
  destruct (XRD_init_reciprocal (fun _ => Some 1) (cubic (1 / 2))
              [("Si"%string, (0, 0, 0))] "1" (si_model 1)
              (1 / 2, 0, 0) (0, 1 / 2, 0) (0, 0, 1 / 2)
              (4 * PI, 0, 0) (0, 4 * PI, 0) (0, 0, 4 * PI)
              (si_model_constructed 1 "1") eq_refl eq_refl)
    as [[H11 [H12 _]] _].
  split; [exact H11 | exact H12].
Defined.

(** ** The form-factor file *)

(** X9: [get_atom_form] finds the first line of an element.  It returns
    [None] exactly when no line of the file starts with the element, and it
    returns the numbers of a line exactly when no earlier line starts with
    the element. *)
Theorem get_atom_form_first_line (form_file : list (string * list R))
  (element : string) :
  (get_atom_form form_file element = None <->
   ~ In element (map fst form_file)) /\
  (forall nums,
      get_atom_form form_file element = Some nums <->
      exists before after,
        form_file = before ++ (element, nums) :: after /\
        ~ In element (map fst before)).
Proof.
  unfold get_atom_form.
  induction form_file as [| [sym ns] rest [IHnone IHsome]]; simpl.
  - split.
    + split; [intros _ [] | reflexivity].
    + intros nums. split; [discriminate |].
      intros [before [after [E _]]]. destruct before; discriminate E.
  - destruct (String.eqb_spec sym element) as [-> | Hne].
    + split.
      * split; [discriminate | intros H; exfalso; apply H; auto].
      * intros nums. split.
        -- intros H. injection H as ->. exists [], rest.
           split; [reflexivity | intros []].
        -- intros [before [after [E Hnot]]].
           destruct before as [| [s0 n0] before]; simpl in E.
           ++ injection E as -> _. reflexivity.
           ++ injection E as -> _ _. exfalso. apply Hnot. left. reflexivity.
    + split.
      * rewrite IHnone. split; intros H.
        -- intros [E | Hin]; [contradiction | apply H, Hin].
        -- intros Hin. apply H. right. exact Hin.
      * intros nums. rewrite IHsome. split.
        -- intros [before [after [E Hnot]]].
           exists ((sym, ns) :: before), after. split.
           ++ rewrite E. reflexivity.
           ++ intros [Es | Hin]; [contradiction | apply Hnot, Hin].
        -- intros [before [after [E Hnot]]].
           destruct before as [| [s0 n0] before]; simpl in E.
           ++ injection E as Es _. contradiction.
           ++ injection E as -> -> E. exists before, after.
              split; [exact E |]. intros Hin. apply Hnot. right. exact Hin.
Qed.

(** ** Plane enumeration again *)

Lemma norm_lincomb_opp (p : hkl) (k_1 k_2 k_3 : vec3) :
  norm (lincomb (hkl_opp p) k_1 k_2 k_3) = norm (lincomb p k_1 k_2 k_3).
Proof.
  destruct p as [[h k] l], k_1 as [[a0 a1] a2], k_2 as [[b0 b1] b2],
    k_3 as [[c0 c1] c2].
  unfold norm, hkl_opp, lincomb, vadd, vscale, dot. f_equal.
  rewrite !opp_IZR. ring.
Qed.

Lemma kvec_scan_opp (wl : R) (k_1 k_2 k_3 : vec3) (b : Z) (p : hkl) :
  In p (kvec_scan wl k_1 k_2 k_3 b) -> In (hkl_opp p) (kvec_scan wl k_1 k_2 k_3 b).
Proof.
  destruct p as [[h k] l]. intros H. apply kvec_scan_In in H.
  destruct H as [Hcube Hb]. apply kvec_scan_In. split; [lia |].
  unfold sin_twotheta in *.
  rewrite (norm_lincomb_opp (h, k, l)). exact Hb.
Qed.

(** X10: plane enumeration is symmetric under negation: [(h, k, l)] is
    returned by [get_kvec_list] exactly when [(-h, -k, -l)] is. *)
Theorem get_kvec_list_opposite (wl : R) (k_1 k_2 k_3 : vec3)
  (max_index : option Z) (planes : list hkl) (h k l : Z) :
  get_kvec_list wl k_1 k_2 k_3 max_index = Ok planes ->
  (In (h, k, l) planes <-> In (- h, - k, - l)%Z planes).
Proof.
  intros H. unfold get_kvec_list in H.
  apply bind_ok_inv in H. destruct H as [b [_ H]]. injection H as <-.
  split; intros Hin.
  - apply (kvec_scan_opp wl k_1 k_2 k_3 b (h, k, l) Hin).
  - apply (kvec_scan_opp wl k_1 k_2 k_3 b (- h, - k, - l)%Z) in Hin.
    simpl in Hin. rewrite !Z.opp_involutive in Hin. exact Hin.
Qed.

Lemma get_kvec_list_opposite_witness :
  exists planes,
    get_kvec_list 1 (4 * PI, 0, 0) (0, 4 * PI, 0) (0, 0, 4 * PI) (Some 1%Z) =
    Ok planes /\
    In (1, 0, 0)%Z planes /\ In (- (1), - 0, - 0)%Z planes.
Proof.
  assert (Hpi := PI_RGT_0).
  exists (kvec_scan 1 (4 * PI, 0, 0) (0, 4 * PI, 0) (0, 0, 4 * PI) 1).
  assert (Hin : In (1, 0, 0)%Z
                  (kvec_scan 1 (4 * PI, 0, 0) (0, 4 * PI, 0) (0, 0, 4 * PI) 1)).
  { apply kvec_scan_In. split; [lia |].
    rewrite sin_twotheta_spec, norm_cubic by lra. simpl. rewrite sqrt_1.
    replace (1 * (4 * PI * 1) / (4 * PI)) with 1 by (field; lra). lra. }
  split; [reflexivity |]. split; [exact Hin |].
  apply (get_kvec_list_opposite 1 (4 * PI, 0, 0) (0, 4 * PI, 0) (0, 0, 4 * PI)
           (Some 1%Z) _ 1 0 0 eq_refl).
  exact Hin.
Defined.

Lemma filter_length_bound {A : Type} (f : A -> bool) (l : list A) :
  (length (filter f l) <= length l)%nat.
Proof.
  induction l as [| a l IH]; simpl; [lia |].
  destruct (f a); simpl; lia.
Qed.

Lemma flat_map_length_const {A B : Type} (f : A -> list B) (n : nat) (l : list A) :
  (forall a, length (f a) = n) -> length (flat_map f l) = (length l * n)%nat.
Proof.
  intros H. induction l as [| a l IH]; simpl; [reflexivity |].
  rewrite length_app, H, IH. reflexivity.
Qed.

Lemma product3_length (r : list Z) :
  length (product3 r) = (length r * (length r * length r))%nat.
Proof.
  unfold product3. apply flat_map_length_const. intros h.
  apply flat_map_length_const. intros k. apply length_map.
Qed.

Lemma xrange_length (lo hi : Z) : length (xrange lo hi) = Z.to_nat (hi - lo).
Proof. unfold xrange. rewrite length_map, length_seq. reflexivity. Qed.

(** X11: without an explicit bound the enumeration is capped: the list that
    [get_kvec_list] returns holds at most 11^3 = 1331 planes, since the
    derived bound never exceeds 5. *)
Theorem get_kvec_list_capped (wl : R) (k_1 k_2 k_3 : vec3) (planes : list hkl) :
  get_kvec_list wl k_1 k_2 k_3 None = Ok planes ->
  (length planes <= 1331)%nat.
Proof.
  intros H. unfold get_kvec_list in H.
  apply bind_ok_inv in H. destruct H as [b [Hb H]]. injection H as <-.
  assert (Hcap : (b <= 5)%Z).
  { unfold resolve_bound in Hb.
    apply bind_ok_inv in Hb. destruct Hb as [h [_ Hb]].
    apply bind_ok_inv in Hb. destruct Hb as [k [_ Hb]].
    apply bind_ok_inv in Hb. destruct Hb as [l [_ Hb]].
    injection Hb as <-. unfold MAX_INDEX. lia. }
  unfold kvec_scan.
  apply (Nat.le_trans _ _ _ (filter_length_bound _ _)).
  rewrite product3_length, xrange_length.
  assert (Hn : (Z.to_nat (b + 1 - - b) <= 11)%nat) by lia.
  nia.
Qed.

Lemma get_kvec_list_capped_witness :
  exists planes,
    get_kvec_list (1 / 2) (4 * PI, 0, 0) (0, 4 * PI, 0) (0, 0, 4 * PI) None =
    Ok planes /\
    (length planes <= 1331)%nat.
Proof.
  assert (Hpi := PI_RGT_0).
  destruct (resolve_bound_positive (1 / 2) (4 * PI, 0, 0) (0, 4 * PI, 0)
              (0, 0, 4 * PI)) as [b [Hb _]];
    [lra | rewrite norm_axis_x; lra | rewrite norm_axis_y; lra
     | rewrite norm_axis_z; lra |].
  assert (Hk : get_kvec_list (1 / 2) (4 * PI, 0, 0) (0, 4 * PI, 0)
                 (0, 0, 4 * PI) None =
               Ok (kvec_scan (1 / 2) (4 * PI, 0, 0) (0, 4 * PI, 0)
                     (0, 0, 4 * PI) b)).
  { unfold get_kvec_list. rewrite Hb. reflexivity. }
  eexists. split; [exact Hk |].
  apply (get_kvec_list_capped _ _ _ _ _ Hk).
Defined.

(** ** The pattern again *)

Section PatternShape.

Variable form_file : list (string * list R).
Variable set_order : list string -> list string.

Lemma angle_step_record (m : XRD) (p : hkl) (fl : list C) (acc : xrd_acc) :
  s_factors form_file (atoms m) (elements_of set_order m) (y_of m p) p [] = Ok fl ->
  acc_profile (angle_step (wavelength m) p (y_of m p) fl acc) =
  acc_profile acc ++
  (if emits m p then [record_of form_file set_order m p] else []).
Proof.
  intros Hfl. unfold angle_step, emits, record_of. destruct p as [[h k] l].
  rewrite Hfl.
  destruct (in_unit (wavelength m * y_of m (h, k, l))); cbn [andb];
    [| cbn [acc_profile]; rewrite app_nil_r; reflexivity].
  destruct (Reqb _ (PI / 2) || Reqb _ 0); cbn [negb];
    [rewrite app_nil_r; reflexivity | reflexivity].
Qed.

(** The reflection sequence, exactly: one record per plane that [emits], in
    the order of the planes. *)
Lemma xrd_loop_profile (m : XRD) (planes : list hkl) : forall acc acc',
  xrd_loop form_file set_order m planes acc = Ok acc' ->
  acc_profile acc' =
  acc_profile acc ++
  map (record_of form_file set_order m) (filter (emits m) planes).
Proof.
  induction planes as [| p planes IH]; intros acc acc' H; simpl in H.
  - injection H as <-. simpl. rewrite app_nil_r. reflexivity.
  - apply bind_ok_inv in H. destruct H as [fl [Hfl H]].
    rewrite (IH _ _ H), (angle_step_record m p fl acc Hfl), <- app_assoc.
    simpl. destruct (emits m p); reflexivity.
Qed.

Lemma get_xrd_inv (m m' : XRD) (printed : list R) :
  get_xrd form_file set_order m = Ok (m', printed) ->
  exists k_1 k_2 k_3 planes acc,
    rec_lattice m = (k_1, k_2, k_3) /\
    get_kvec_list (wavelength m) k_1 k_2 k_3 None = Ok planes /\
    xrd_loop form_file set_order m planes acc_empty = Ok acc /\
    inten_profile m' = Some (acc_profile acc) /\
    twotheta_list m' = Some (acc_twotheta acc) /\
    intensity_list m' = Some (acc_intensity acc) /\
    printed = acc_printed acc.
Proof.
  unfold get_xrd. destruct (rec_lattice m) as [[k_1 k_2] k_3] eqn:Erec.
  intros H. apply bind_ok_inv in H. destruct H as [planes [Hk H]].
  apply bind_ok_inv in H. destruct H as [acc [Hl H]].
  injection H as <- <-.
  exists k_1, k_2, k_3, planes, acc. repeat split; assumption.
Qed.

Lemma plane_of_record_of (m : XRD) (p : hkl) :
  plane_of (record_of form_file set_order m p) = p.
Proof. destruct p as [[h k] l]. reflexivity. Qed.

(** X13: the reflection sequence follows the enumeration.  When [get_xrd]
    returns, the planes of its records are the enumerated planes that pass
    the angle test with an angle other than 0 and pi/2, in enumeration
    order; in particular they are strictly increasing (h, then k, then l),
    so no plane has two records. *)
Theorem get_xrd_planes_in_order (m m' : XRD) (printed : list R) :
  get_xrd form_file set_order m = Ok (m', printed) ->
  exists k_1 k_2 k_3 planes profile,
    rec_lattice m = (k_1, k_2, k_3) /\
    get_kvec_list (wavelength m) k_1 k_2 k_3 None = Ok planes /\
    inten_profile m' = Some profile /\
    map plane_of profile = filter (emits m) planes /\
    StronglySorted hkl_lt (map plane_of profile).
Proof.
  intros H.
  destruct (get_xrd_inv m m' printed H)
    as [k_1 [k_2 [k_3 [planes [acc [Erec [Hk [Hl [Hp _]]]]]]]]].
  exists k_1, k_2, k_3, planes, (acc_profile acc).
  assert (E : map plane_of (acc_profile acc) = filter (emits m) planes).
  { rewrite (xrd_loop_profile m planes acc_empty acc Hl). simpl.
    rewrite map_map. rewrite (map_ext _ (fun p => p) (plane_of_record_of m)).
    apply map_id. }
  repeat split; try assumption.
  rewrite E. apply StronglySorted_filter.
  unfold get_kvec_list in Hk. apply bind_ok_inv in Hk.
  destruct Hk as [b [_ Hk]]. injection Hk as <-.
  unfold kvec_scan. apply StronglySorted_filter, product3_sorted, xrange_sorted.
Qed.

End PatternShape.

Lemma si_get_xrd (wl : R) :
  0 < wl ->
  exists m' printed,
    get_xrd si_form_file nodup_order (si_model wl) = Ok (m', printed).
Proof.
  intros Hw. assert (Hpi := PI_RGT_0).
  destruct (get_xrd_returns si_form_file nodup_order (si_model wl)
              (4 * PI, 0, 0) (0, 4 * PI, 0) (0, 0, 4 * PI)
              nodup_order_ok (si_table_covers wl) eq_refl)
    as [b [acc [_ [_ Hget]]]].
  - exact Hw.
  - rewrite norm_axis_x; lra.
  - rewrite norm_axis_y; lra.
  - rewrite norm_axis_z; lra.
  - do 2 eexists. exact Hget.
Qed.

Lemma get_xrd_planes_in_order_witness :
  exists m' profile,
    inten_profile m' = Some profile /\
    StronglySorted hkl_lt (map plane_of profile).
Proof.
  destruct (si_get_xrd (1 / 2) ltac:(lra)) as [m' [printed Hget]].
  destruct (get_xrd_planes_in_order si_form_file nodup_order
              (si_model (1 / 2)) m' printed Hget)
    as [k_1 [k_2 [k_3 [planes [profile [_ [_ [Hp [_ Hs]]]]]]]]].
  exists m', profile. split; [exact Hp | exact Hs].
Defined.

(** ** When [get_xrd] returns *)

Section PatternReturns.

Variable form_file : list (string * list R).
Variable set_order : list string -> list string.

Lemma atom_form_ok_inv (element : string) (y v : R) :
  atom_form form_file element y = Ok v ->
  exists nums, get_atom_form form_file element = Some nums /\
               (9 <= length nums)%nat.
Proof.
  unfold atom_form.
  destruct (get_atom_form form_file element) as [nums |]; [| discriminate].
  cbn [from_option bind]. intros H. exists nums. split; [reflexivity |].
  destruct nums as [| a0 [| a1 [| a2 [| a3 [| a4 [| a5 [| a6 [| a7 [| a8 t]]]]]]]]];
    cbn [index from_option nth_error bind] in H; try discriminate H.
  simpl. lia.
Qed.

Lemma xrd_loop_ok_inv (m : XRD) (planes : list hkl) : forall acc acc' p,
  xrd_loop form_file set_order m planes acc = Ok acc' -> In p planes ->
  exists fl,
    s_factors form_file (atoms m) (elements_of set_order m) (y_of m p) p [] = Ok fl.
Proof.
  induction planes as [| q planes IH]; intros acc acc' p H Hin; [destruct Hin |].
  simpl in H. apply bind_ok_inv in H. destruct H as [fl [Hfl H]].
  destruct Hin as [<- | Hin]; [exists fl; exact Hfl |].
  apply (IH _ _ p H Hin).
Qed.

(** X14: for a positive wavelength and reciprocal axes that are not zero,
    [get_xrd] returns exactly when every element of the atom list has a
    line with at least nine numbers in the form-factor file; otherwise it
    raises. *)
Theorem get_xrd_returns_iff_covered (m : XRD) (k_1 k_2 k_3 : vec3) :
  set_order_ok set_order ->
  rec_lattice m = (k_1, k_2, k_3) -> 0 < wavelength m ->
  norm k_1 <> 0 -> norm k_2 <> 0 -> norm k_3 <> 0 ->
  ((exists r, get_xrd form_file set_order m = Ok r) <->
   table_covers form_file (atoms m)).
Proof.
  intros Hso Erec Hw H1 H2 H3. split.
  - intros [[m' printed] H].
    destruct (get_xrd_inv form_file set_order m m' printed H)
      as [k_1' [k_2' [k_3' [planes [acc [Erec' [Hk [Hl _]]]]]]]].
    rewrite Erec in Erec'. injection Erec' as <- <- <-.
    destruct (resolve_bound_positive _ _ _ _ Hw H1 H2 H3) as [b [Hb Hrange]].
    unfold get_kvec_list in Hk. rewrite Hb in Hk. injection Hk as <-.
    destruct (xrd_loop_ok_inv m _ _ _ (0, 0, 0)%Z Hl) as [fl Hfl];
      [apply origin_in_scan; lia |].
    destruct (s_factors_ok form_file _ _ _ _ _ _ Hfl) as [Hall _].
    intros a Ha.
    apply (atom_form_ok_inv (fst a) (y_of m (0, 0, 0)%Z)
             (form_value form_file (y_of m (0, 0, 0)%Z) (fst a))).
    apply Hall. unfold elements_of. apply (Hso (map fst (atoms m))).
    apply in_map, Ha.
  - intros Hcov.
    destruct (get_xrd_returns form_file set_order m k_1 k_2 k_3 Hso Hcov Erec
                Hw H1 H2 H3) as [b [acc [_ [_ Hget]]]].
    eexists. exact Hget.
Qed.

End PatternReturns.

Lemma get_xrd_returns_iff_covered_witness :
  (exists r, get_xrd si_form_file nodup_order (si_model (1 / 2)) = Ok r) <->
  table_covers si_form_file (atoms (si_model (1 / 2))).
Proof.
  assert (Hpi := PI_RGT_0).
  apply (get_xrd_returns_iff_covered si_form_file nodup_order (si_model (1 / 2))
           (4 * PI, 0, 0) (0, 4 * PI, 0) (0, 0, 4 * PI) nodup_order_ok eq_refl).
  - simpl. lra.
  - rewrite norm_axis_x; lra.
  - rewrite norm_axis_y; lra.
  - rewrite norm_axis_z; lra.
Defined.

(** ** What a record holds *)

Lemma emits_true (m : XRD) (p : hkl) :
  emits m p = true ->
  -1 <= wavelength m * y_of m p <= 1 /\
  asin (wavelength m * y_of m p) <> PI / 2 /\
  asin (wavelength m * y_of m p) <> 0.
Proof.
  unfold emits. intros H. apply andb_true_iff in H. destruct H as [Hu Hn].
  apply negb_true_iff, orb_false_iff in Hn. destruct Hn as [H2 H0].
  split; [apply in_unit_true, Hu |].
  split; [apply Reqb_false, H2 | apply Reqb_false, H0].
Qed.

Lemma get_xrd_record_inv (form_file : list (string * list R))
  (set_order : list string -> list string) (m m' : XRD) (printed : list R)
  (profile : list reflection) (r : reflection) :
  get_xrd form_file set_order m = Ok (m', printed) ->
  inten_profile m' = Some profile -> In r profile ->
  exists k_1 k_2 k_3 b p,
    rec_lattice m = (k_1, k_2, k_3) /\
    (forall q, In q (kvec_scan (wavelength m) k_1 k_2 k_3 b) ->
               emits m q = true ->
               In (record_of form_file set_order m q) profile) /\
    In p (kvec_scan (wavelength m) k_1 k_2 k_3 b) /\
    emits m p = true /\
    (exists fl, s_factors form_file (atoms m) (elements_of set_order m)
                  (y_of m p) p [] = Ok fl) /\
    r = record_of form_file set_order m p.
Proof.
  intros H Hp Hr.
  destruct (get_xrd_inv form_file set_order m m' printed H)
    as [k_1 [k_2 [k_3 [planes [acc [Erec [Hk [Hl [Hp' _]]]]]]]]].
  rewrite Hp in Hp'. injection Hp' as ->.
  unfold get_kvec_list in Hk. apply bind_ok_inv in Hk.
  destruct Hk as [b [_ Hk]]. injection Hk as <-.
  rewrite (xrd_loop_profile form_file set_order m _ acc_empty acc Hl) in Hr |- *.
  simpl in Hr. apply in_map_iff in Hr. destruct Hr as [p [<- Hin]].
  apply filter_In in Hin. destruct Hin as [Hin He].
  exists k_1, k_2, k_3, b, p. split; [exact Erec |]. split.
  - intros q Hq Heq. simpl. apply in_map. apply filter_In. auto.
  - split; [exact Hin |]. split; [exact He |].
    split; [apply (xrd_loop_ok_inv form_file set_order m _ _ _ p Hl Hin) |].
    reflexivity.
Qed.

Lemma y_of_nonneg (m : XRD) (p : hkl) : 0 <= y_of m p.
Proof.
  unfold y_of, norm. assert (Hpi := PI_RGT_0).
  assert (Hs := sqrt_pos (dot (vecmat p (rec_lattice m)) (vecmat p (rec_lattice m)))).
  apply Rmult_le_pos; [apply Rmult_le_pos; [exact Hs | lra] |].
  left. apply Rinv_0_lt_compat. exact Hpi.
Qed.

Lemma asin_open (x : R) :
  0 <= x <= 1 -> asin x <> 0 -> asin x <> PI / 2 -> 0 < asin x < PI / 2.
Proof.
  intros Hx H0 H2. assert (Hpi := PI_RGT_0).
  destruct (asin_bound x) as [Hlo Hhi].
  assert (Hs : sin (asin x) = x) by (apply sin_asin; lra).
  split; [| lra].
  destruct (Rlt_le_dec (asin x) 0) as [Hneg | Hpos]; [| lra].
  assert (sin (asin x) < 0) by (apply sin_lt_0_var; lra).
  lra.
Qed.

Lemma lp_factor_pos (theta : R) : 0 < theta < PI / 2 -> 0 < lp_factor theta.
Proof.
  intros Ht. assert (Hpi := PI_RGT_0). unfold lp_factor.
  assert (Hc : 0 < cos theta) by (apply cos_gt_0; lra).
  assert (Hs : 0 < sin theta) by (apply sin_gt_0; lra).
  apply Rdiv_lt_0_compat.
  - assert (0 <= cos (theta * 2) ^ 2) by apply pow2_ge_0. lra.
  - apply Rmult_lt_0_compat; [| exact Hc].
    apply Rmult_lt_0_compat; [lra |]. apply pow_lt. exact Hs.
Qed.

(** X15: for a wavelength that is not negative, every record of the pattern
    has a two-theta strictly between 0 and 180 degrees and an intensity that
    is not negative. *)
Theorem get_xrd_record_range (form_file : list (string * list R))
  (set_order : list string -> list string) (m m' : XRD) (printed : list R)
  (profile : list reflection) (h k l : Z) (twotheta inten : R) :
  0 <= wavelength m ->
  get_xrd form_file set_order m = Ok (m', printed) ->
  inten_profile m' = Some profile ->
  In (h, k, l, twotheta, inten) profile ->
  0 < twotheta < 180 /\ 0 <= inten.
Proof.
  intros Hw H Hp Hr. assert (Hpi := PI_RGT_0).
  destruct (get_xrd_record_inv _ _ _ _ _ _ _ H Hp Hr)
    as [k_1 [k_2 [k_3 [b [p [_ [_ [_ [He [_ E]]]]]]]]]].
  destruct (emits_true m p He) as [[_ Hu] [H2 H0]].
  assert (Hy := y_of_nonneg m p).
  assert (Hth : 0 < asin (wavelength m * y_of m p) < PI / 2).
  { apply asin_open; [| exact H0 | exact H2].
    split; [apply Rmult_le_pos; assumption | exact Hu]. }
  destruct p as [[h' k'] l']. unfold record_of in E.
  injection E as <- <- <- -> ->. split.
  - split.
    + apply Rmult_lt_0_compat; [| lra].
      apply Rdiv_lt_0_compat; lra.
    + apply (Rmult_lt_reg_r (PI / 360)); [lra |].
      replace (2 * 180 / PI * asin (wavelength m * y_of m (h, k, l)) * (PI / 360))
        with (asin (wavelength m * y_of m (h, k, l))) by (field; lra).
      lra.
  - destruct (s_factors _ _ _ _ _ _) as [fl |]; [| lra].
    apply Rmult_le_pos; [apply pow2_ge_0 |].
    left. apply lp_factor_pos, Hth.
Qed.

(** X16: the d-spacing of a reflection does not depend on the wavelength.
    For every record of the pattern, Bragg's formula of [get_dspacing],
    [wavelength / (2 * sin(two_theta * pi / 360))], gives
    [2 * pi / |q|] for the scattering vector
    [q = np.dot([h, k, l], rec_lattice)] of the record. *)
Theorem get_xrd_record_dspacing (form_file : list (string * list R))
  (set_order : list string -> list string) (m m' : XRD) (printed : list R)
  (profile : list reflection) (h k l : Z) (twotheta inten : R) :
  get_xrd form_file set_order m = Ok (m', printed) ->
  inten_profile m' = Some profile ->
  In (h, k, l, twotheta, inten) profile ->
  wavelength m / (2 * sin (twotheta * PI / 360)) =
  2 * PI / norm (vecmat (h, k, l) (rec_lattice m)).
Proof.
  intros H Hp Hr. assert (Hpi := PI_RGT_0).
  destruct (get_xrd_record_inv _ _ _ _ _ _ _ H Hp Hr)
    as [k_1 [k_2 [k_3 [b [p [_ [_ [_ [He [_ E]]]]]]]]]].
  destruct (emits_true m p He) as [Hu [_ H0]].
  destruct p as [[h' k'] l']. unfold record_of in E.
  injection E as <- <- <- -> _.
  replace (2 * 180 / PI * asin (wavelength m * y_of m (h, k, l)) * PI / 360)
    with (asin (wavelength m * y_of m (h, k, l))) by (field; lra).
  rewrite sin_asin by exact Hu.
  assert (Hnz : wavelength m * y_of m (h, k, l) <> 0).
  { intros E. apply H0. rewrite E. apply asin_0. }
  assert (Hw : wavelength m <> 0) by (intros E; apply Hnz; rewrite E; ring).
  assert (Hy : y_of m (h, k, l) <> 0) by (intros E; apply Hnz; rewrite E; ring).
  unfold y_of in *.
  assert (Hn : norm (vecmat (h, k, l) (rec_lattice m)) <> 0).
  { intros E. apply Hy. rewrite E. unfold Rdiv. ring. }
  field. repeat split; assumption || lra.
Qed.

(** The pattern of the silicon cell at wavelength 1/2 has a record for the
    plane (1, 0, 0). *)
Lemma si_record_100 :
  exists m' printed profile twotheta inten,
    get_xrd si_form_file nodup_order (si_model (1 / 2)) = Ok (m', printed) /\
    inten_profile m' = Some profile /\
    In (1%Z, 0%Z, 0%Z, twotheta, inten) profile.
Proof.
  assert (Hpi := PI_RGT_0).
  destruct (get_xrd_returns si_form_file nodup_order (si_model (1 / 2))
              (4 * PI, 0, 0) (0, 4 * PI, 0) (0, 0, 4 * PI)
              nodup_order_ok (si_table_covers (1 / 2)) eq_refl)
    as [b [acc [Hb [Hloop Hget]]]].
  - simpl. lra.
  - rewrite norm_axis_x; lra.
  - rewrite norm_axis_y; lra.
  - rewrite norm_axis_z; lra.
  - assert (Hy : wavelength (si_model (1 / 2)) *
                 y_of (si_model (1 / 2)) (1, 0, 0)%Z = 1 / 2).
    { rewrite y_of_si. simpl. rewrite sqrt_1. lra. }
    destruct (xrd_loop_emits _ _ _ _ _ _ Hloop) as [_ Hemit].
    destruct (Hemit 1%Z 0%Z 0%Z) as [tt [inten Hin]].
    + apply kvec_scan_In. split; [lia |].
      rewrite sin_twotheta_spec. simpl wavelength.
      rewrite norm_cubic by lra. simpl. rewrite sqrt_1.
      replace (1 / 2 * (4 * PI * 1) / (4 * PI)) with (1 / 2) by (field; lra).
      lra.
    + rewrite Hy. lra.
    + rewrite Hy. apply asin_half_not_degenerate.
    + rewrite Hy. apply asin_half_not_degenerate.
    + do 5 eexists. split; [exact Hget |]. split; [reflexivity | exact Hin].
Qed.

Lemma get_xrd_record_range_witness :
  exists twotheta inten : R, 0 < twotheta < 180 /\ 0 <= inten.
Proof.
  destruct si_record_100 as [m' [printed [profile [tt [inten [Hget [Hp Hin]]]]]]].
  exists tt, inten.
  apply (get_xrd_record_range si_form_file nodup_order (si_model (1 / 2)) m'
           printed profile 1 0 0 tt inten); [simpl; lra | | |]; assumption.
Defined.

Lemma get_xrd_record_dspacing_witness :
  exists twotheta : R,
    wavelength (si_model (1 / 2)) / (2 * sin (twotheta * PI / 360)) =
    2 * PI / norm (vecmat (1, 0, 0)%Z (rec_lattice (si_model (1 / 2)))).
Proof.
  destruct si_record_100 as [m' [printed [profile [tt [inten [Hget [Hp Hin]]]]]]].
  exists tt.
  apply (get_xrd_record_dspacing si_form_file nodup_order (si_model (1 / 2)) m'
           printed profile 1 0 0 tt inten); assumption.
Defined.

(** ** Opposite planes *)

Lemma Cconj_add (a b : C) : Cconj (Cadd a b) = Cadd (Cconj a) (Cconj b).
Proof. destruct a, b. unfold Cconj, Cadd. simpl. f_equal. ring. Qed.

Lemma Csum_conj (l : list C) : Csum (map Cconj l) = Cconj (Csum l).
Proof.
  induction l as [| a l IH]; simpl.
  - unfold Csum, Cconj, C0. simpl. f_equal. ring.
  - rewrite !Csum_cons, IH, Cconj_add. reflexivity.
Qed.

Lemma Cnorm_conj (z : C) : Cnorm (Cconj z) = Cnorm z.
Proof. destruct z. unfold Cnorm, Cconj. simpl. f_equal. ring. Qed.

Lemma dot_plane_opp (v : vec3) (p : hkl) :
  dot v (plane_vec (hkl_opp p)) = - dot v (plane_vec p).
Proof.
  destruct v as [[v0 v1] v2], p as [[h k] l].
  unfold dot, plane_vec, hkl_opp. rewrite !opp_IZR. ring.
Qed.

Lemma element_factors_opp (ats : list atom) (e : string) (f : R) (p : hkl) :
  element_factors ats e f (hkl_opp p) = map Cconj (element_factors ats e f p).
Proof.
  unfold element_factors. rewrite map_map. apply map_ext. intros a.
  rewrite dot_plane_opp. unfold Cconj, Cscale, Cexp_i. simpl.
  replace (2 * PI * - dot (snd a) (plane_vec p))
    with (- (2 * PI * dot (snd a) (plane_vec p))) by ring.
  rewrite cos_neg, sin_neg. f_equal. ring.
Qed.

Lemma s_factors_opp (form_file : list (string * list R)) (ats : list atom)
  (y : R) (p : hkl) (els : list string) : forall acc fl,
  s_factors form_file ats els y p acc = Ok fl ->
  s_factors form_file ats els y (hkl_opp p) (map Cconj acc) = Ok (map Cconj fl).
Proof.
  induction els as [| e els IH]; intros acc fl H; simpl in *.
  - injection H as <-. reflexivity.
  - destruct (atom_form form_file e y) as [f |]; simpl in *; [| discriminate H].
    rewrite element_factors_opp, <- map_app. apply IH, H.
Qed.

Lemma y_of_opp (m : XRD) (p : hkl) : y_of m (hkl_opp p) = y_of m p.
Proof.
  unfold y_of. do 2 f_equal.
  destruct (rec_lattice m) as [[[[a0 a1] a2] [[b0 b1] b2]] [[c0 c1] c2]].
  destruct p as [[h k] l]. unfold norm, vecmat, hkl_opp, dot. f_equal.
  rewrite !opp_IZR. ring.
Qed.

Lemma emits_opp (m : XRD) (p : hkl) : emits m (hkl_opp p) = emits m p.
Proof. unfold emits. rewrite y_of_opp. reflexivity. Qed.

(** X17: opposite planes give equal reflections.  Whenever the pattern has
    a record for [(h, k, l)], it has a record for [(-h, -k, -l)] with the same
    two-theta and the same intensity. *)
Theorem get_xrd_opposite_record (form_file : list (string * list R))
  (set_order : list string -> list string) (m m' : XRD) (printed : list R)
  (profile : list reflection) (h k l : Z) (twotheta inten : R) :
  get_xrd form_file set_order m = Ok (m', printed) ->
  inten_profile m' = Some profile ->
  In (h, k, l, twotheta, inten) profile ->
  In ((- h)%Z, (- k)%Z, (- l)%Z, twotheta, inten) profile.
Proof.
  intros H Hp Hr.
  destruct (get_xrd_record_inv _ _ _ _ _ _ _ H Hp Hr)
    as [k_1 [k_2 [k_3 [b [p [_ [Hall [Hin [He [[fl Hfl] E]]]]]]]]]].
  assert (Hopp := Hall (hkl_opp p) (kvec_scan_opp _ _ _ _ _ _ Hin)
                    (eq_trans (emits_opp m p) He)).
  destruct p as [[h' k'] l']. unfold record_of in E.
  rewrite Hfl in E. injection E as <- <- <- -> ->.
  unfold record_of, hkl_opp in Hopp.
  change (- h, - k, - l)%Z with (hkl_opp (h, k, l)) in Hopp.
  rewrite y_of_opp in Hopp.
  assert (Hs := s_factors_opp _ _ _ _ _ [] fl Hfl). cbn [map] in Hs.
  rewrite Hs, Csum_conj, Cnorm_conj in Hopp. exact Hopp.
Qed.

Lemma get_xrd_opposite_record_witness :
  exists profile (twotheta inten : R),
    In (1%Z, 0%Z, 0%Z, twotheta, inten) profile /\
    In ((- (1))%Z, (- 0)%Z, (- 0)%Z, twotheta, inten) profile.
Proof.
  destruct si_record_100 as [m' [printed [profile [tt [inten [Hget [Hp Hin]]]]]]].
  exists profile, tt, inten. split; [exact Hin |].
  apply (get_xrd_opposite_record si_form_file nodup_order (si_model (1 / 2)) m'
           printed profile 1 0 0 tt inten); assumption.
Defined.

(** ** One atom in the cell *)

(** X18: with a single atom in the cell there is no interference: the
    intensity of every record is the square of the atom's form factor at
    the record's [y], times the Lorentz-polarisation factor. *)
Theorem get_xrd_single_atom (form_file : list (string * list R))
  (set_order : list string -> list string) (m m' : XRD) (printed : list R)
  (profile : list reflection) (a : atom) (h k l : Z) (twotheta inten : R) :
  set_order_ok set_order ->
  atoms m = [a] ->
  get_xrd form_file set_order m = Ok (m', printed) ->
  inten_profile m' = Some profile ->
  In (h, k, l, twotheta, inten) profile ->
  exists f,
    form_factor_spec form_file (fst a) (y_of m (h, k, l)) = Some f /\
    inten = f ^ 2 * lp_factor (asin (wavelength m * y_of m (h, k, l))).
Proof.
  intros Hso Ha H Hp Hr.
  destruct (get_xrd_record_inv _ _ _ _ _ _ _ H Hp Hr)
    as [k_1 [k_2 [k_3 [b [p [_ [_ [_ [_ [[fl Hfl] E]]]]]]]]]].
  destruct p as [[h' k'] l']. unfold record_of in E.
  rewrite Hfl in E. injection E as <- <- <- _ ->.
  unfold elements_of in Hfl.
  assert (Hsum := s_factors_sum form_file set_order (atoms m)
                    (y_of m (h, k, l)) (h, k, l) fl Hso Hfl).
  rewrite Ha in Hsum. simpl in Hsum.
  destruct (form_factor_spec form_file (fst a) (y_of m (h, k, l))) as [f |];
    [| discriminate Hsum].
  injection Hsum as Hsum. exists f. split; [reflexivity |].
  change (Cnorm (Csum fl) * (Cnorm (Csum fl) * 1)) with (Cnorm (Csum fl) ^ 2).
  rewrite <- Hsum, Cnorm_sq. unfold Cadd, Cscale, Cexp_i, C0. simpl.
  f_equal.
  set (t := 2 * PI * dot (snd a) (IZR h, IZR k, IZR l)).
  assert (Hone := sin2_cos2 t). unfold Rsqr in Hone.
  replace ((f * cos t + 0) * (f * cos t + 0) + (f * sin t + 0) * (f * sin t + 0))
    with (f * f * (sin t * sin t + cos t * cos t)) by ring.
  rewrite Hone. ring.
Qed.

Lemma get_xrd_single_atom_witness :
  exists (twotheta inten f : R),
    form_factor_spec si_form_file "Si" (y_of (si_model (1 / 2)) (1, 0, 0)%Z) =
    Some f /\
    inten = f ^ 2 * lp_factor (asin (wavelength (si_model (1 / 2)) *
                                     y_of (si_model (1 / 2)) (1, 0, 0)%Z)).
Proof.
  destruct si_record_100 as [m' [printed [profile [tt [inten [Hget [Hp Hin]]]]]]].
  destruct (get_xrd_single_atom si_form_file nodup_order (si_model (1 / 2)) m'
              printed profile ("Si"%string, (0, 0, 0)) 1 0 0 tt inten
              nodup_order_ok eq_refl Hget Hp Hin) as [f [Hf Hi]].
  exists tt, inten, f. split; [exact Hf | exact Hi].
Defined.

(** ** The empty pattern, downstream *)

Lemma get_xrd_only_origin (form_file : list (string * list R))
  (set_order : list string -> list string) (m : XRD) (b1 b2 b3 : vec3) :
  set_order_ok set_order ->
  table_covers form_file (atoms m) ->
  rec_lattice m = (b1, b2, b3) ->
  (forall h k l, (h, k, l) <> (0, 0, 0)%Z ->
     ~ -1 <= wavelength m * norm (lincomb (h, k, l) b1 b2 b3) / (4 * PI) <= 1) ->
  get_xrd form_file set_order m =
  Ok (mkXRD (lattice m) (rec_lattice m) (atoms m) (wavelength m)
            (Some []) (Some []) (Some []), []).
Proof.
  intros Hso Hcov Erec Hbragg.
  destruct (bragg_origin_only_nonzero _ _ _ _ Hbragg) as [Hw [H1 [H2 H3]]].
  assert (Hb := resolve_bound_derived (wavelength m) b1 b2 b3 Hw H1 H2 H3).
  set (b := Z.min 5 _) in Hb.
  apply (get_xrd_unfold form_file set_order m b1 b2 b3
           (kvec_scan (wavelength m) b1 b2 b3 b) acc_empty Erec).
  - unfold get_kvec_list. rewrite Hb. reflexivity.
  - apply xrd_loop_origin_only; [exact Hso | exact Hcov |].
    intros [[h k] l] Hp. apply kvec_scan_In in Hp. destruct Hp as [_ Hp].
    rewrite sin_twotheta_spec in Hp.
    destruct (hkl_eq_dec (h, k, l) (0, 0, 0)%Z) as [E | N]; [exact E |].
    exfalso. exact (Hbragg h k l N Hp).
Qed.


(** X19: an empty pattern stops both outputs.  For a model without a cached
    pattern whose wavelength is so large that only the origin satisfies the
    Bragg bound (and whose elements have their form factors), [get_dspacing]
    and [plot] raise [ValueError]: [max] of the empty list of merged
    intensities, before the file is opened and before anything is drawn. *)
Theorem empty_pattern_raises (form_file : list (string * list R))
  (set_order : list string -> list string)
  (np_sort : list R -> list R) (np_argsort : list R -> list nat)
  (str_float : R -> string) (m : XRD) (b1 b2 b3 : vec3)
  (angles : R * R) (output : option string) :
  set_order_ok set_order ->
  table_covers form_file (atoms m) ->
  rec_lattice m = (b1, b2, b3) ->
  (forall h k l, (h, k, l) <> (0, 0, 0)%Z ->
     ~ -1 <= wavelength m * norm (lincomb (h, k, l) b1 b2 b3) / (4 * PI) <= 1) ->
  twotheta_list m = None ->
  get_dspacing form_file set_order np_sort np_argsort str_float m =
  Raise ValueError /\
  plot form_file set_order m angles output = Raise ValueError.
Proof.
  intros Hso Hcov Erec Hbragg Hnone.
  assert (Hget := get_xrd_only_origin form_file set_order m b1 b2 b3
                    Hso Hcov Erec Hbragg).
  assert (Hens : ensure_xrd form_file set_order m =
                 Ok (mkXRD (lattice m) (rec_lattice m) (atoms m) (wavelength m)
                           (Some []) (Some []) (Some []), [])).
  { unfold ensure_xrd. rewrite Hnone. exact Hget. }
  split.
  - unfold get_dspacing. rewrite Hens. reflexivity.
  - unfold plot. rewrite Hens. reflexivity.
Qed.

Lemma empty_pattern_raises_witness :
  get_dspacing si_form_file nodup_order insertion_sort insertion_argsort
    (fun _ => "x"%string) (si_model 100) = Raise ValueError /\
  plot si_form_file nodup_order (si_model 100) (0, 180) None = Raise ValueError.
Proof.
  apply (empty_pattern_raises si_form_file nodup_order insertion_sort
           insertion_argsort (fun _ => "x"%string) (si_model 100)
           (4 * PI, 0, 0) (0, 4 * PI, 0) (0, 0, 4 * PI) (0, 180) None
           nodup_order_ok (si_table_covers 100) eq_refl);
    [| reflexivity].
  intros h k l N [_ Hle].
  assert (Hpi := PI_RGT_0).
  rewrite norm_cubic in Hle by lra.
  assert (Hs := sqrt_sum_squares_ge_1 h k l N).
  replace (wavelength (si_model 100) *
           (4 * PI * sqrt (IZR (h * h + k * k + l * l))) / (4 * PI))
    with (100 * sqrt (IZR (h * h + k * k + l * l))) in Hle
    by (simpl; field; lra).
  lra.
Defined.

(** ** The plot *)




(** ** The script *)

Section Script.

Variable form_file : list (string * list R).
Variable set_order : list string -> list string.
Variable py_float : string -> option R.
Variable np_sort : list R -> list R.
Variable np_argsort : list R -> list nat.
Variable str_float : R -> string.

(** The pattern does not depend on what is cached: computed again on the
    model it returned, it is the same. *)
Lemma get_xrd_again (m m1 : XRD) (printed : list R) :
  get_xrd form_file set_order m = Ok (m1, printed) ->
  get_xrd form_file set_order m1 = Ok (m1, printed).
Proof.
  unfold get_xrd. destruct (rec_lattice m) as [[k_1 k_2] k_3] eqn:Erec.
  intros H. apply bind_ok_inv in H. destruct H as [planes [Hk H]].
  apply bind_ok_inv in H. destruct H as [acc [Hl H]].
  injection H as <- <-. cbn [rec_lattice wavelength].
  rewrite Hk. cbn [bind].
  assert (Hsame : forall pl a,
            xrd_loop form_file set_order
              (mkXRD (lattice m) (k_1, k_2, k_3) (atoms m) (wavelength m)
                     (Some (acc_twotheta acc)) (Some (acc_profile acc))
                     (Some (acc_intensity acc))) pl a =
            xrd_loop form_file set_order m pl a).
  { induction pl as [| p pl IH]; intros a; [reflexivity |].
    cbn [xrd_loop]. unfold y_of, elements_of. cbn [rec_lattice atoms wavelength].
    rewrite Erec.
    destruct (s_factors form_file (atoms m) (set_order (map fst (atoms m)))
                (norm (vecmat p (k_1, k_2, k_3)) / 4 / PI) p []) as [fl |];
      cbn [bind]; [apply IH | reflexivity]. }
  rewrite Hsame, Hl. reflexivity.
Qed.


Lemma get_dspacing_file (m : XRD) :
  get_dspacing form_file set_order np_sort np_argsort str_float m =
  ('(m1, printed) <- ensure_xrd form_file set_order m ;;
   file <- dspacing_file np_sort np_argsort str_float m1 ;;
   Ok (m1, printed, file)).
Proof.
  unfold get_dspacing, dspacing_file.
  destruct (ensure_xrd form_file set_order m) as [[m1 printed] | e];
    cbn [bind]; [| reflexivity].
  destruct (from_option TypeError (twotheta_list m1)) as [x_list | e];
    cbn [bind]; [| reflexivity].
  destruct (from_option TypeError (intensity_list m1)) as [y_list | e];
    cbn [bind]; [| reflexivity].
  destruct (sum_intensity x_list y_list default_tolerance) as [[nx ny] | e];
    cbn [bind]; [| reflexivity].
  destruct (normalize ny 100) as [yn | e]; cbn [bind]; [| reflexivity].
  destruct (for_each (index nx) (np_argsort yn)) as [xs | e];
    cbn [bind]; [| reflexivity].
  destruct (for_each _ (seq 0 (length (rev xs)))) as [rows | e];
    cbn [bind]; reflexivity.
Qed.

Lemma dspacing_file_empty (m1 : XRD) (y_list : list R) :
  twotheta_list m1 = Some [] -> intensity_list m1 = Some y_list ->
  dspacing_file np_sort np_argsort str_float m1 = Raise ValueError.
Proof.
  intros Ht Hi. unfold dspacing_file. rewrite Ht, Hi. reflexivity.
Qed.

(** X21: the call to [get_xrd] in the script changes nothing.  For the model
    the constructor builds, the script returns what [get_dspacing] alone
    returns on that model (the values printed and the file written), and
    raises the exception it raises. *)
Theorem main_is_get_dspacing (lat_const : R) (lattice_vecs : mat3)
  (ats : list atom) (wl : string) (m : XRD) :
  XRD_init py_float (mscale lat_const lattice_vecs) ats wl = Ok m ->
  main form_file set_order py_float np_sort np_argsort str_float
       lat_const lattice_vecs ats wl =
  ('(_, printed, file) <-
     get_dspacing form_file set_order np_sort np_argsort str_float m ;;
   Ok (printed, file)).
Proof.
  intros Hinit. unfold main. rewrite Hinit. cbn [bind].
  assert (Hnone : twotheta_list m = None).
  { unfold XRD_init in Hinit.
    apply bind_ok_inv in Hinit. destruct Hinit as [i [_ Hinit]].
    apply bind_ok_inv in Hinit. destruct Hinit as [w [_ Hinit]].
    injection Hinit as <-. reflexivity. }
  rewrite (get_dspacing_file m). unfold ensure_xrd at 1. rewrite Hnone.
  destruct (get_xrd form_file set_order m) as [[m1 p1] | e] eqn:Hget;
    cbn [bind]; [| reflexivity].
  rewrite (get_dspacing_file m1).
  destruct (get_xrd_inv form_file set_order m m1 p1 Hget)
    as [k_1 [k_2 [k_3 [planes [acc [_ [_ [_ [_ [Ht [Hi _]]]]]]]]]]].
  unfold ensure_xrd. rewrite Ht.
  destruct (acc_twotheta acc) as [| x xs] eqn:Ex.
  - rewrite (get_xrd_again m m1 p1 Hget). cbn [bind].
    rewrite (dspacing_file_empty m1 _ Ht Hi). reflexivity.
  - cbn [bind].
    destruct (dspacing_file np_sort np_argsort str_float m1) as [file | e];
      cbn [bind]; [rewrite app_nil_r |]; reflexivity.
Qed.

End Script.

Lemma main_is_get_dspacing_witness :
  main si_form_file nodup_order (fun _ => Some (1 / 2)) insertion_sort
       insertion_argsort (fun _ => "x"%string)
       1 (cubic (1 / 2)) [("Si"%string, (0, 0, 0))] "0.5" =
  ('(_, printed, file) <-
     get_dspacing si_form_file nodup_order insertion_sort insertion_argsort
       (fun _ => "x"%string)
       (mkXRD (mscale 1 (cubic (1 / 2)))
              (mscale_pi2 (transpose (cubic (/ (1 / 2)))))
              [("Si"%string, (0, 0, 0))] (1 / 2) None None None) ;;
   Ok (printed, file)).
Proof.
  apply (main_is_get_dspacing si_form_file nodup_order (fun _ => Some (1 / 2))
           insertion_sort insertion_argsort (fun _ => "x"%string)
           1 (cubic (1 / 2)) [("Si"%string, (0, 0, 0))] "0.5").
  unfold XRD_init, mscale, cubic, vscale, inv.
  destruct (Req_dec_T _ 0) as [E | _]; [unfold det in E; lra |].
  cbn [bind transpose mscale_pi2]. unfold det.
  do 2 f_equal.
  repeat match goal with
         | |- (_, _) = (_, _) => f_equal
         end; field.
Defined.

(** ** The pattern once more *)

(** X22: computing the pattern again gives the same pattern: on the model
    that [get_xrd] returned, [get_xrd] returns that model and the same
    printed values, whatever was cached. *)
Theorem get_xrd_idempotent (form_file : list (string * list R))
  (set_order : list string -> list string) (m m1 : XRD) (printed : list R) :
  get_xrd form_file set_order m = Ok (m1, printed) ->
  get_xrd form_file set_order m1 = Ok (m1, printed).
Proof. apply get_xrd_again. Qed.

Lemma get_xrd_idempotent_witness :
  exists m1 printed,
    get_xrd si_form_file nodup_order (si_model (1 / 2)) = Ok (m1, printed) /\
    get_xrd si_form_file nodup_order m1 = Ok (m1, printed).
Proof.
  destruct (si_get_xrd (1 / 2) ltac:(lra)) as [m1 [printed Hget]].
  exists m1, printed. split; [exact Hget |].
  apply (get_xrd_idempotent si_form_file nodup_order (si_model (1 / 2)) m1
           printed Hget).
Defined.

(** X23: the three sequences of a pattern are parallel: the two-theta list
    and the intensity list that [get_xrd] stores are the two-theta column
    and the intensity column of the reflection sequence it stores. *)
Theorem get_xrd_parallel (form_file : list (string * list R))
  (set_order : list string -> list string) (m m' : XRD) (printed : list R) :
  get_xrd form_file set_order m = Ok (m', printed) ->
  exists profile,
    inten_profile m' = Some profile /\
    twotheta_list m' = Some (map (fun r : reflection => snd (fst r)) profile) /\
    intensity_list m' = Some (map (fun r : reflection => snd r) profile).
Proof.
  intros H.
  destruct (get_xrd_inv form_file set_order m m' printed H)
    as [k_1 [k_2 [k_3 [planes [acc [_ [_ [Hl [Hp [Ht [Hi _]]]]]]]]]]].
  destruct (xrd_loop_parallel form_file set_order m planes acc_empty acc Hl)
    as [Et Ei]; [split; reflexivity |].
  exists (acc_profile acc). rewrite <- Et, <- Ei. auto.
Qed.

Lemma get_xrd_parallel_witness :
  exists m' profile,
    inten_profile m' = Some profile /\
    twotheta_list m' = Some (map (fun r : reflection => snd (fst r)) profile).
Proof.
  destruct (si_get_xrd (1 / 2) ltac:(lra)) as [m' [printed Hget]].
  destruct (get_xrd_parallel si_form_file nodup_order (si_model (1 / 2)) m'
              printed Hget) as [profile [Hp [Ht _]]].
  exists m', profile. split; [exact Hp | exact Ht].
Defined.

Lemma emits_origin (m : XRD) : emits m (0, 0, 0)%Z = false.
Proof.
  unfold emits. rewrite y_of_origin, Rmult_0_r, asin_0.
  rewrite (proj2 (Reqb_true 0 0) eq_refl), orb_true_r.
  apply andb_false_r.
Qed.

(** X24: the origin is never a reflection: no record of a pattern has the
    plane (0, 0, 0), for any model. *)
Theorem get_xrd_no_origin_record (form_file : list (string * list R))
  (set_order : list string -> list string) (m m' : XRD) (printed : list R)
  (profile : list reflection) (twotheta inten : R) :
  get_xrd form_file set_order m = Ok (m', printed) ->
  inten_profile m' = Some profile ->
  ~ In (0%Z, 0%Z, 0%Z, twotheta, inten) profile.
Proof.
  intros H Hp Hr.
  destruct (get_xrd_record_inv _ _ _ _ _ _ _ H Hp Hr)
    as [k_1 [k_2 [k_3 [b [p [_ [_ [_ [He [_ E]]]]]]]]]].
  destruct p as [[h k] l]. unfold record_of in E.
  injection E as <- <- <- _ _.
  rewrite emits_origin in He. discriminate He.
Qed.

Lemma get_xrd_no_origin_record_witness :
  exists m' profile,
    inten_profile m' = Some profile /\
    ~ In (0%Z, 0%Z, 0%Z, 0, 0) profile.
Proof.
  destruct (si_get_xrd (1 / 2) ltac:(lra)) as [m' [printed Hget]].
  destruct (get_xrd_inv si_form_file nodup_order _ m' printed Hget)
    as [k_1 [k_2 [k_3 [planes [acc [_ [_ [_ [Hp _]]]]]]]]].
  exists m', (acc_profile acc). split; [exact Hp |].
  apply (get_xrd_no_origin_record si_form_file nodup_order (si_model (1 / 2)) m'
           printed (acc_profile acc) 0 0 Hget Hp).
Defined.

(** ** A negative wavelength *)

Lemma ceil_neg (x : R) : x < 0 -> (ceil x <= 0)%Z.
Proof.
  intros Hx. destruct (ceil_bounds x) as [Hlo _].
  assert (H : IZR (ceil x) < 1) by lra.
  apply lt_IZR in H. lia.
Qed.

(** X25: the sign of the wavelength is not checked, and a negative
    wavelength gives an empty pattern rather than an error: the derived
    bound is then at most 0, so at most the origin is enumerated.  This
    holds for reciprocal axes that are not zero and elements that have
    their form factors. *)
Theorem get_xrd_negative_wavelength (form_file : list (string * list R))
  (set_order : list string -> list string) (m : XRD) (k_1 k_2 k_3 : vec3) :
  set_order_ok set_order ->
  table_covers form_file (atoms m) ->
  rec_lattice m = (k_1, k_2, k_3) ->
  wavelength m < 0 ->
  norm k_1 <> 0 -> norm k_2 <> 0 -> norm k_3 <> 0 ->
  exists m',
    get_xrd form_file set_order m = Ok (m', []) /\
    inten_profile m' = Some [] /\
    twotheta_list m' = Some [] /\
    intensity_list m' = Some [].
Proof.
  intros Hso Hcov Erec Hw H1 H2 H3. assert (Hpi := PI_RGT_0).
  assert (Hb := resolve_bound_derived (wavelength m) k_1 k_2 k_3
                  ltac:(lra) H1 H2 H3).
  set (b := Z.min 5 _) in Hb.
  assert (Hneg : forall k, norm k <> 0 ->
            (ceil (4 * PI / (wavelength m * norm k)) <= 0)%Z).
  { intros k Hk. apply ceil_neg.
    assert (Hn : 0 < norm k).
    { assert (0 <= norm k) by (unfold norm; apply sqrt_pos). lra. }
    assert (Hd : wavelength m * norm k < 0) by nra.
    assert (Hi : / (wavelength m * norm k) < 0)
      by (apply Rinv_lt_0_compat; exact Hd).
    unfold Rdiv. nra. }
  assert (Hb0 : (b <= 0)%Z).
  { assert (Hn1 := Hneg k_1 H1). assert (Hn2 := Hneg k_2 H2).
    assert (Hn3 := Hneg k_3 H3). unfold b. lia. }
  assert (Hl : xrd_loop form_file set_order m
                 (kvec_scan (wavelength m) k_1 k_2 k_3 b) acc_empty = Ok acc_empty).
  { apply xrd_loop_origin_only; [exact Hso | exact Hcov |].
    intros [[h k] l] Hp. apply kvec_scan_In in Hp. destruct Hp as [Hcube _].
    f_equal; [f_equal |]; lia. }
  rewrite (get_xrd_unfold form_file set_order m k_1 k_2 k_3
             (kvec_scan (wavelength m) k_1 k_2 k_3 b) acc_empty Erec).
  - eexists. split; [reflexivity |]. simpl. auto.
  - unfold get_kvec_list. rewrite Hb. reflexivity.
  - exact Hl.
Qed.

Lemma get_xrd_negative_wavelength_witness :
  exists m',
    get_xrd si_form_file nodup_order (si_model (- (1))) = Ok (m', []) /\
    inten_profile m' = Some [] /\
    twotheta_list m' = Some [] /\
    intensity_list m' = Some [].
Proof.
  assert (Hpi := PI_RGT_0).
  apply (get_xrd_negative_wavelength si_form_file nodup_order (si_model (- (1)))
           (4 * PI, 0, 0) (0, 4 * PI, 0) (0, 0, 4 * PI)
           nodup_order_ok (si_table_covers (- (1))) eq_refl).
  - simpl. lra.
  - rewrite norm_axis_x; lra.
  - rewrite norm_axis_y; lra.
  - rewrite norm_axis_z; lra.
Defined.
